(** * SIETK assistant chat route: retrieval / generation pipeline

    A shallow embedding of the two chat entry points of the repository:

    - [src/app/api/chat/route.ts]: cache check, tiered retrieval
      (knowledge base first, web search raced against a timer), prompt,
      generation with fallback, cache write, chunked stream;
    - the second route handler kept in [src/lib/tavily-search.ts]: the same
      support functions, an intent classifier, the unified parallel search
      and a prompt builder that drops the current query from the history.

    Strings are sequences of UTF-16 code units, as JavaScript has them; the
    stream carries UTF-8 bytes, as [TextEncoder] produces them.  Outbound
    calls (knowledge base, search providers, generation providers) and the
    host built-ins whose tables are not part of the repository (SHA-256,
    Unicode case mapping, number printing) are fields of a [World] record.
    A request is the [messages] array of its body, or nothing when the body
    cannot be read; a message has a string content and a role that can be
    missing, so the [catch] of the handlers is reached as in the code. *)

From Stdlib Require Import ZArith NArith QArith Lia String Ascii.
From Equations Require Import Equations.
From stdpp Require Import gmap list.

Local Open Scope Z_scope.

(** ** JavaScript strings *)

(** A string is its list of UTF-16 code units. *)
Abbreviation jsstring := (list N).

(** An ASCII literal of the source, as code units. *)
Definition lit (s : string) : jsstring :=
  List.map N_of_ascii (list_ascii_of_string s).

Definition nl : jsstring := [10%N].
Definition dquote : jsstring := [34%N].

(** JavaScript truthiness of a string: the empty string is falsy. *)
Definition truthy (s : jsstring) : bool :=
  match s with [] => false | _ :: _ => true end.

(** Truthiness of a value that is a string, [null] or [undefined]
    ([process.env.X], the result of [getCached]): [if (x)] holds for a
    non-empty string only. *)
Definition truthy_opt (v : option jsstring) : option jsstring :=
  match v with
  | Some s => if truthy s then Some s else None
  | None => None
  end.

(** [Array.prototype.slice] and [String.prototype.slice] share their index
    arithmetic: a negative index counts from the end, everything is clamped
    to [0, length]. *)
Definition rel_index (len k : Z) : Z :=
  if k <? 0 then Z.max (len + k) 0 else Z.min k len.

Definition slice {A} (l : list A) (start : Z) (stop : option Z) : list A :=
  let len := Z.of_nat (length l) in
  let from := rel_index len start in
  let to := match stop with None => len | Some e => rel_index len e end in
  take (Z.to_nat (to - from)) (drop (Z.to_nat from) l).

(** [Array.prototype.join]. *)
Fixpoint join (sep : jsstring) (parts : list jsstring) : jsstring :=
  match parts with
  | [] => []
  | [p] => p
  | p :: rest => p ++ sep ++ join sep rest
  end.

(** WhiteSpace and LineTerminator code units, the ones [trim] strips. *)
Definition is_js_space (u : N) : bool :=
  ((9 <=? u) && (u <=? 13) || (u =? 32) || (u =? 160) || (u =? 5760)
   || (8192 <=? u) && (u <=? 8202) || (u =? 8232) || (u =? 8233)
   || (u =? 8239) || (u =? 8287) || (u =? 12288) || (u =? 65279))%N.

Fixpoint trimStart (s : jsstring) : jsstring :=
  match s with
  | [] => []
  | u :: rest => if is_js_space u then trimStart rest else s
  end.

Definition trimEnd (s : jsstring) : jsstring := rev (trimStart (rev s)).

Definition trim (s : jsstring) : jsstring := trimEnd (trimStart s).

(** ** TextEncoder *)

Definition is_high_surrogate (u : N) : bool := ((55296 <=? u) && (u <=? 56319))%N.
Definition is_low_surrogate (u : N) : bool := ((56320 <=? u) && (u <=? 57343))%N.
Definition is_surrogate (u : N) : bool := is_high_surrogate u || is_low_surrogate u.

(** U+FFFD in UTF-8: what an unpaired surrogate is encoded as. *)
Definition replacement : list N := [239; 191; 189]%N.

Definition cont (x : N) : N := N.lor 128 (N.land x 63).

(** UTF-8 of one scalar value. *)
Definition utf8_scalar (c : N) : list N :=
  if (c <? 128)%N then [c]
  else if (c <? 2048)%N then [N.lor 192 (N.shiftr c 6); cont c]
  else if (c <? 65536)%N then
    [N.lor 224 (N.shiftr c 12); cont (N.shiftr c 6); cont c]
  else
    [N.lor 240 (N.shiftr c 18); cont (N.shiftr c 12); cont (N.shiftr c 6); cont c].

Definition pair_scalar (hi lo : N) : N :=
  (65536 + N.shiftl (hi - 55296) 10 + (lo - 56320))%N.

(** [new TextEncoder().encode(s)]: a surrogate pair is one scalar value, a
    surrogate without its partner becomes U+FFFD. *)
Fixpoint encode (s : jsstring) : list N :=
  match s with
  | [] => []
  | u :: rest =>
      if is_high_surrogate u then
        match rest with
        | l :: rest' =>
            if is_low_surrogate l then utf8_scalar (pair_scalar u l) ++ encode rest'
            else replacement ++ encode rest
        | [] => replacement
        end
      else if is_low_surrogate u then replacement ++ encode rest
      else utf8_scalar u ++ encode rest
  end.

(** ** Responses and the stream emitter *)

Inductive stream_event :=
| Enqueue (bytes : list N)
| Close.

Inductive Body :=
| Text (s : jsstring)
| Stream (events : list stream_event).

Record Response := mkResponse {
  status : Z;
  headers : list (jsstring * jsstring);
  body : Body
}.

Definition chunkSize : nat := 20.

(** The [push] closure of [createStreamResponse]: one call per timer tick,
    [i] is the captured counter.  The 10 ms pause between two calls is not
    part of the emitted sequence. *)
Equations? push (text : jsstring) (i : nat) : list stream_event
  by wf (length text - i)%nat lt :=
  push text i with ge_dec i (length text) => {
    | left _ := [Close];
    | right _ :=
        Enqueue (encode (slice text (Z.of_nat i) (Some (Z.of_nat (i + chunkSize)))))
        :: push text (i + chunkSize) }.
Proof. unfold chunkSize. lia. Qed.

Definition stream_headers : list (jsstring * jsstring) :=
  [ (lit "Content-Type", lit "text/plain; charset=utf-8");
    (lit "Cache-Control", lit "no-cache");
    (lit "Connection", lit "keep-alive") ].

Definition createStreamResponse (text : jsstring) : Response :=
  {| status := 200; headers := stream_headers; body := Stream (push text 0) |}.

(** The bytes a reader of the stream receives, in order. *)
Fixpoint received (evs : list stream_event) : list N :=
  match evs with
  | [] => []
  | Enqueue b :: rest => b ++ received rest
  | Close :: _ => []
  end.

(** ** The world outside the handler *)

Inductive settled (A : Type) :=
| Fulfilled (value : A)
| Rejected (reason : jsstring).
Arguments Fulfilled {A} value.
Arguments Rejected {A} reason.

(** A promise of an outbound call: when it settles (milliseconds after it
    was started) and how. *)
Record promise (A : Type) := mkPromise {
  latency : Z;
  outcome : settled A
}.
Arguments mkPromise {A} latency outcome.
Arguments latency {A} p.
Arguments outcome {A} p.

(** What [fetch] resolves to, as far as [callGemini] and [callGroq] look at
    it: [res.ok], [res.statusText], and the outcome of [res.json()] followed
    by the optional chain down to the first candidate text: [None] when
    [res.json()] rejects, [Some None] when the chain ends in [undefined],
    [Some (Some t)] when it reaches the text [t]. *)
Record http_response := mkHttp {
  ok : bool;
  statusText : jsstring;
  extracted : option (option jsstring)
}.

Record World := mkWorld {
  GEMINI_API_KEY : option jsstring;
  GROQ_API_KEY : option jsstring;
  (* host built-ins *)
  sha256hex : jsstring -> jsstring;
  toLowerCase : jsstring -> jsstring;
  toUpperCase : jsstring -> jsstring;
  numberToString : Q -> jsstring;
  (* collaborators *)
  searchKnowledgeBase : jsstring -> jsstring;
  searchSIETKWebsite : jsstring -> promise jsstring;
  searchTavily : jsstring -> promise jsstring;
  fetchGemini : jsstring -> jsstring -> promise http_response;
  fetchGroq : jsstring -> jsstring -> promise http_response
}.

(** ** Handler state and its monad *)

Record CacheEntry := mkEntry {
  answer : jsstring;
  timestamp : Z
}.

Inductive event :=
| KbSearch (query : jsstring)
| ExaSearch (query : jsstring)
| TavilySearch (query : jsstring)
| GeminiCall (prompt key : jsstring)
| GroqCall (prompt key : jsstring)
| CachePut (key : jsstring) (entry : CacheEntry).

(** The module-level [cache] map, the wall clock read by [Date.now()], and
    the outbound calls and cache writes made so far, oldest first. *)
Record state := mkState {
  cache : gmap jsstring CacheEntry;
  clock : Z;
  log : list event
}.

Inductive result (A : Type) :=
| Ok (value : A)
| Thrown (error : jsstring).
Arguments Ok {A} value.
Arguments Thrown {A} error.

Definition M (A : Type) : Type := state -> result A * state.

Definition ret {A} (a : A) : M A := fun st => (Ok a, st).

Definition throw {A} (e : jsstring) : M A := fun st => (Thrown e, st).

Definition bind {A B} (m : M A) (k : A -> M B) : M B :=
  fun st =>
    match m st with
    | (Ok a, st') => k a st'
    | (Thrown e, st') => (Thrown e, st')
    end.

Definition try_catch {A} (m : M A) (handler : jsstring -> M A) : M A :=
  fun st =>
    match m st with
    | (Ok a, st') => (Ok a, st')
    | (Thrown e, st') => handler e st'
    end.

Declare Scope js_scope.
Delimit Scope js_scope with js.
Notation "x <- m ;; k" := (bind m (fun x => k))
  (at level 100, m at next level, right associativity) : js_scope.
Notation "m ;; k" := (bind m (fun _ => k))
  (at level 100, right associativity) : js_scope.
Local Open Scope js_scope.

Definition emit (e : event) : M unit :=
  fun st => (Ok tt, {| cache := cache st; clock := clock st; log := log st ++ [e] |}).

Definition Date_now : M Z := fun st => (Ok (clock st), st).

Definition elapse (ms : Z) : M unit :=
  fun st => (Ok tt, {| cache := cache st; clock := clock st + ms; log := log st |}).

Definition settle {A} (o : settled A) : M A :=
  match o with
  | Fulfilled v => ret v
  | Rejected e => throw e
  end.

(** [await p]. *)
Definition await {A} (p : promise A) : M A :=
  elapse (latency p) ;; settle (outcome p).

(** [await Promise.race([p, new Promise((_, reject) => setTimeout(() =>
    reject(new Error('timeout')), ms))])]: the call behind [p] is started
    before the timer is created, so [p] wins when it settles no later than
    the timer fires. *)
Definition await_race {A} (p : promise A) (ms : Z) : M A :=
  if latency p <=? ms then await p
  else elapse ms ;; throw (lit "timeout").

(** [Promise.allSettled([p1, p2])]: settles when both have, never rejects. *)
Definition allSettled {A} (p1 p2 : promise A) : promise (settled A * settled A) :=
  {| latency := Z.max (latency p1) (latency p2);
     outcome := Fulfilled (outcome p1, outcome p2) |}.

(** ** Response cache *)

Definition cache_key (W : World) (query : jsstring) : jsstring :=
  sha256hex W (trim (toLowerCase W query)).

Definition getCached (W : World) (query : jsstring) : M (option jsstring) :=
  let key := cache_key W query in
  now <- Date_now ;;
  fun st =>
    match cache st !! key with
    | Some cached =>
        if now - timestamp cached <? 3600000 then (Ok (Some (answer cached)), st)
        else (Ok None, st)
    | None => (Ok None, st)
    end.

Definition setCache (W : World) (query answer : jsstring) : M unit :=
  let key := cache_key W query in
  now <- Date_now ;;
  fun st =>
    let entry := {| answer := answer; timestamp := now |} in
    (Ok tt, {| cache := <[key := entry]> (cache st);
               clock := clock st;
               log := log st ++ [CachePut key entry] |}).

(** ** Tiered retrieval *)

Record RetrievalResult := mkRetrieval {
  content : jsstring;
  confidence : Q;
  sources : list jsstring
}.

(** [status === 'fulfilled' ? value : ""]. *)
Definition fulfilled_or_empty (o : settled jsstring) : jsstring :=
  match o with
  | Fulfilled v => v
  | Rejected _ => []
  end.

Definition tieredRetrieval (W : World) (query : jsstring) : M RetrievalResult :=
  (* TIER 1 *)
  emit (KbSearch query) ;;
  let kbResult := searchKnowledgeBase W query in
  if truthy kbResult then
    ret {| content := kbResult; confidence := 0.95; sources := [lit "Knowledge Base"] |}
  else
    (* TIER 2 *)
    try_catch
      (emit (ExaSearch query) ;;
       emit (TavilySearch query) ;;
       webResults <-
         await_race (allSettled (searchSIETKWebsite W query) (searchTavily W query)) 1500 ;;
       let exa := fulfilled_or_empty (fst webResults) in
       let tavily := fulfilled_or_empty (snd webResults) in
       if negb (truthy exa) && negb (truthy tavily) then
         ret {| content := lit "No information found."; confidence := 0; sources := [] |}
       else
         ret {| content := lit "EXA: " ++ exa ++ nl ++ nl ++ lit "TAVILY: " ++ tavily;
                confidence := 0.85;
                sources := [lit "Web Search"] |})
      (fun _ =>
         ret {| content := lit "Search timed out."; confidence := 0.1; sources := [] |}).

(** ** Generation with fallback *)

(** The part of [callGemini] and [callGroq] after [fetch]: a response that
    is not [ok] throws, a body that cannot be read throws, a missing text
    defaults to the empty string. *)
Definition read_text (res : settled http_response) : settled jsstring :=
  match res with
  | Rejected e => Rejected e
  | Fulfilled r =>
      if negb (ok r) then Rejected (statusText r)
      else match extracted r with
           | None => Rejected (lit "invalid json")
           | Some None => Fulfilled []
           | Some (Some t) => Fulfilled t
           end
  end.

Definition callGemini (W : World) (prompt key : jsstring) : M (promise jsstring) :=
  emit (GeminiCall prompt key) ;;
  let res := fetchGemini W prompt key in
  ret {| latency := latency res; outcome := read_text (outcome res) |}.

Definition callGroq (W : World) (prompt key : jsstring) : M (promise jsstring) :=
  emit (GroqCall prompt key) ;;
  let res := fetchGroq W prompt key in
  ret {| latency := latency res; outcome := read_text (outcome res) |}.

Definition apology : jsstring :=
  lit "I'm sorry, I'm having trouble connecting to my AI brain right now. Please try again in 10 seconds.".

Definition generateWithFallback (W : World) (prompt googleKey : jsstring) : M jsstring :=
  try_catch
    (* ATTEMPT 1 *)
    (p <- callGemini W prompt googleKey ;; await_race p 3500)
    (fun _ =>
       (* ATTEMPT 2 *)
       match truthy_opt (GROQ_API_KEY W) with
       | Some groqKey =>
           try_catch
             (p <- callGroq W prompt groqKey ;; await_race p 5000)
             (fun _ => ret apology)
       | None => ret apology
       end).

(** ** Prompt *)

(** A message of the request body: [role] is a string or missing, [content]
    is a string (empty when there is nothing to ask). *)
Module Message.
Record t := mk { role : option jsstring; content : jsstring }.
End Message.

Definition TypeError : jsstring :=
  lit "TypeError: Cannot read properties of undefined".

(** One history line: [`${m.role.toUpperCase()}: ${m.content}`]; the method
    call throws on a message without [role]. *)
Definition render_message (W : World) (m : Message.t) : result jsstring :=
  match Message.role m with
  | Some role => Ok (toUpperCase W role ++ lit ": " ++ Message.content m)
  | None => Thrown TypeError
  end.

(** [Array.prototype.map] with a callback that can throw: left to right,
    the first exception ends it. *)
Fixpoint Array_map {A B} (f : A -> result B) (l : list A) : result (list B) :=
  match l with
  | [] => Ok []
  | x :: rest =>
      match f x with
      | Thrown e => Thrown e
      | Ok y =>
          match Array_map f rest with
          | Thrown e => Thrown e
          | Ok ys => Ok (y :: ys)
          end
      end
  end.

(** A computation that only returns or throws. *)
Definition eval {A} (r : result A) : M A := fun st => (r, st).

(** [const { messages } = await req.json()], read by [messages.slice]: the
    body is [None] when it cannot be parsed or has no [messages] array, and
    the handler throws. *)
Definition read_messages (body : option (list Message.t)) : M (list Message.t) :=
  match body with
  | Some messages => ret messages
  | None => throw TypeError
  end.

(** The template literal returned by [buildProductionPrompt], with the
    history block already joined. *)
Definition prompt_template (W : World) (retrieval : RetrievalResult)
    (recentHistory query : jsstring) : jsstring :=
  lit "You are SIETK Assistant. Answer based on the CONTEXT provided." ++ nl
  ++ lit "  " ++ nl
  ++ lit "CONTEXT (Confidence: " ++ numberToString W (confidence retrieval) ++ lit "):" ++ nl
  ++ content retrieval ++ nl
  ++ nl
  ++ lit "HISTORY:" ++ nl
  ++ recentHistory ++ nl
  ++ nl
  ++ lit "USER QUESTION:" ++ nl
  ++ query ++ nl
  ++ nl
  ++ lit "INSTRUCTIONS:" ++ nl
  ++ lit "1. If the CONTEXT contains the answer, use it and cite it like this [1]." ++ nl
  ++ lit "2. If the answer is NOT in context, politely say you don't know. Do NOT hallucinate." ++ nl
  ++ lit "3. Be concise and helpful." ++ nl
  ++ lit "4. Format nicely with markdown.".

(** ** Error responses *)

(** [JSON.stringify({ error: msg })]. *)
Definition error_json (msg : string) : jsstring :=
  lit "{" ++ dquote ++ lit "error" ++ dquote ++ lit ":" ++ dquote ++ lit msg ++ dquote ++ lit "}".

Definition error_response (code : Z) (msg : string) : Response :=
  {| status := code; headers := []; body := Text (error_json msg) |}.

(** ** [src/app/api/chat/route.ts] *)

Module Route.

Definition buildProductionPrompt (W : World) (retrieval : RetrievalResult)
    (query : jsstring) (history : list Message.t) : result jsstring :=
  match Array_map (render_message W) (slice history (-4) None) with
  | Thrown e => Thrown e
  | Ok lines =>
      let recentHistory := join nl lines in
      Ok (prompt_template W retrieval recentHistory query)
  end.

(** The text streamed by the [catch] of [POST]. *)
Definition critical_error_text : jsstring :=
  lit "I'm experiencing high traffic. Please try asking again in a moment. (System Error)".

Definition POST (W : World) (body : option (list Message.t)) : M Response :=
  match truthy_opt (GEMINI_API_KEY W) with
  | None => ret (error_response 500 "API key missing")
  | Some apiKey =>
      try_catch
        (messages <- read_messages body ;;
         let latestMessage := head (slice messages (-1) None) in
         match truthy_opt (Message.content <$> latestMessage) with
         | None => ret (error_response 400 "No query found")
         | Some userQuery =>
             cachedResponse <- getCached W userQuery ;;
             match truthy_opt cachedResponse with
             | Some hit => ret (createStreamResponse hit)
             | None =>
                 retrieval <- tieredRetrieval W userQuery ;;
                 prompt <- eval (buildProductionPrompt W retrieval userQuery messages) ;;
                 answer <- generateWithFallback W prompt apiKey ;;
                 setCache W userQuery answer ;;
                 ret (createStreamResponse answer)
             end
         end)
        (fun _ => ret (createStreamResponse critical_error_text))
  end.

End Route.

(** ** The route handler in [src/lib/tavily-search.ts] *)

Module Unified.

(** *** Intent classifier *)

Definition is_ascii_lower (u : N) : bool := ((97 <=? u) && (u <=? 122))%N.

(** Canonicalize of a case-insensitive pattern without the [u] flag, as
    far as a comparison with an ASCII pattern character can tell: an
    ASCII letter is upper-cased, and a code unit from 128 on is never
    mapped into the ASCII range. *)
Definition canonicalize (u : N) : N :=
  if is_ascii_lower u then (u - 32)%N else u.

(** A literal alternative between [^] and [$]. *)
Fixpoint match_literal_i (pattern s : jsstring) : bool :=
  match pattern, s with
  | [], [] => true
  | p :: pattern', u :: s' =>
      (canonicalize p =? canonicalize u)%N && match_literal_i pattern' s'
  | _, _ => false
  end.

Definition general_chat_phrases : list jsstring :=
  [ lit "hi"; lit "hello"; lit "hey"; lit "greetings"; lit "thanks";
    lit "thank you"; lit "good morning"; lit "good evening"; lit "bye" ].

(** [/^(hi|hello|...|bye)$/i.test(s)]. *)
Definition general_chat_test (s : jsstring) : bool :=
  existsb (fun p => match_literal_i p s) general_chat_phrases.

Definition isGeneralChat (userQuery : jsstring) : bool :=
  general_chat_test (trim userQuery).

(** *** Unified search *)

Record SearchResults := mkSearch {
  context : jsstring;
  search_confidence : Q
}.

Definition runUnifiedSearch (W : World) (query : jsstring) : M SearchResults :=
  emit (KbSearch query) ;;
  let kbResult := searchKnowledgeBase W query in
  emit (ExaSearch query) ;;
  emit (TavilySearch query) ;;
  webResults <- await (allSettled (searchSIETKWebsite W query) (searchTavily W query)) ;;
  let exa := fulfilled_or_empty (fst webResults) in
  let tavily := fulfilled_or_empty (snd webResults) in
  let combinedContext :=
    (if truthy kbResult
     then lit "--- INTERNAL KNOWLEDGE BASE ---" ++ nl ++ kbResult ++ nl ++ nl
     else [])
    ++ (if truthy exa || truthy tavily
        then lit "--- REAL-TIME WEB SEARCH RESULTS ---" ++ nl
             ++ (if truthy exa then lit "[Source: SIETK.org]: " ++ exa ++ nl else [])
             ++ (if truthy tavily then lit "[Source: Google/Web]: " ++ tavily ++ nl else [])
        else []) in
  let confidence : Q :=
    if truthy kbResult || truthy exa || truthy tavily then 0.9%Q else 0.0%Q in
  ret {| context := combinedContext; search_confidence := confidence |}.

(** *** Prompt *)

Definition buildProductionPrompt (W : World) (retrieval : RetrievalResult)
    (query : jsstring) (history : list Message.t) : result jsstring :=
  match Array_map (render_message W) (slice (slice history 0 (Some (-1))) (-4) None) with
  | Thrown e => Thrown e
  | Ok lines =>
      let recentHistory := join nl lines in
      Ok (prompt_template W retrieval recentHistory query)
  end.

(** *** Handler *)

(** Steps 2 and 3 of [POST]: [context] and [confidence] start out empty
    and zero and are overwritten by the search unless the query is
    general chat. *)
Definition gather (W : World) (isChat : bool) (userQuery : jsstring) : M SearchResults :=
  let context : jsstring := [] in
  let confidence : Q := 0.0%Q in
  if isChat then ret {| context := context; search_confidence := confidence |}
  else
    searchResults <- runUnifiedSearch W userQuery ;;
    ret {| context := Unified.context searchResults;
           search_confidence := search_confidence searchResults |}.

(** The text streamed by the [catch] of [POST]. *)
Definition critical_error_text : jsstring :=
  lit "I'm sorry, I encountered a system error. Please try again.".

Definition POST (W : World) (body : option (list Message.t)) : M Response :=
  match truthy_opt (GEMINI_API_KEY W) with
  | None => ret (error_response 500 "API key missing")
  | Some apiKey =>
      try_catch
        (messages <- read_messages body ;;
         let latestMessage := head (slice messages (-1) None) in
         match truthy_opt (Message.content <$> latestMessage) with
         | None => ret (error_response 400 "No query found")
         | Some userQuery =>
             cachedResponse <- getCached W userQuery ;;
             match truthy_opt cachedResponse with
             | Some hit => ret (createStreamResponse hit)
             | None =>
                 let isChat := isGeneralChat userQuery in
                 found <- gather W isChat userQuery ;;
                 prompt <-
                   eval (buildProductionPrompt W
                           {| content := context found;
                              confidence := search_confidence found;
                              sources := [] |}
                           userQuery messages) ;;
                 answer <- generateWithFallback W prompt apiKey ;;
                 (if negb isChat then setCache W userQuery answer else ret tt) ;;
                 ret (createStreamResponse answer)
             end
         end)
        (fun _ => ret (createStreamResponse critical_error_text))
  end.

End Unified.

(** ** [searchTavily] of [src/lib/tavily-search.ts] *)

Module Tavily.

(** One element of [data.results]; a field is a string or [undefined]. *)
Record result := mkResult {
  title : option jsstring;
  url : option jsstring;
  content : option jsstring
}.

(** The parsed body as far as the function reads it: [data.answer] (a
    string or [undefined]) and [data.results], [Some] when it is an array. *)
Record data := mkData {
  answer : option jsstring;
  results : option (list result)
}.

(** What [fetch] resolves to: [response.ok] and the outcome of
    [response.json()], [None] when it rejects.  The status and the error
    text are only logged. *)
Record response := mkResponse {
  ok : bool;
  json : option data
}.

(** A value inside a template literal. *)
Definition show (v : option jsstring) : jsstring :=
  match v with
  | Some s => s
  | None => lit "undefined"
  end.

(** The [query] field of the request body. *)
Definition search_query (query : jsstring) : jsstring :=
  query ++ lit " site:sietk.org OR " ++ dquote
  ++ lit "Siddharth Institute of Engineering and Technology" ++ dquote.

(** The body of the [forEach] callback: three appends. *)
Definition append_result (formattedResults : jsstring) (r : result) : jsstring :=
  ((formattedResults
    ++ (lit "- Title: " ++ show (title r) ++ nl))
    ++ (lit "  URL: " ++ show (url r) ++ nl))
    ++ (lit "  Content: " ++ show (content r) ++ nl ++ nl).

Definition format (d : data) : jsstring :=
  let formattedResults : jsstring := [] in
  let formattedResults :=
    match truthy_opt (answer d) with
    | Some a => formattedResults ++ (lit "Direct Answer: " ++ a ++ nl ++ nl)
    | None => formattedResults
    end in
  match results d with
  | Some rs => fold_left append_result rs (formattedResults ++ (lit "Web Results:" ++ nl))
  | None => formattedResults
  end.

(** [searchTavily(query)] with [process.env.TAVILY_API_KEY] and the
    behaviour of [fetch] (given the key and the query sent) as arguments.
    Returns the queries sent to the API and the promise of the result. *)
Definition searchTavily (TAVILY_API_KEY : option jsstring)
    (fetch : jsstring -> jsstring -> promise response)
    (query : jsstring) : list jsstring * promise jsstring :=
  match truthy_opt TAVILY_API_KEY with
  | None => ([], {| latency := 0; outcome := Fulfilled [] |})
  | Some apiKey =>
      let sent := search_query query in
      let res := fetch apiKey sent in
      ([sent],
       {| latency := latency res;
          outcome :=
            Fulfilled
              match outcome res with
              | Rejected _ => []
              | Fulfilled r =>
                  if negb (ok r) then []
                  else match json r with
                       | None => []
                       | Some d => format d
                       end
              end |})
  end.

(** The text of one result as it appears in the output. *)
Definition result_block (r : result) : jsstring :=
  lit "- Title: " ++ show (title r) ++ nl
  ++ lit "  URL: " ++ show (url r) ++ nl
  ++ lit "  Content: " ++ show (content r) ++ nl ++ nl.

End Tavily.

(** The world [W] with this [searchTavily] in the place of the table. *)
Definition with_tavily (W : World) (TAVILY_API_KEY : option jsstring)
    (fetch : jsstring -> jsstring -> promise Tavily.response) : World :=
  {| GEMINI_API_KEY := GEMINI_API_KEY W;
     GROQ_API_KEY := GROQ_API_KEY W;
     sha256hex := sha256hex W;
     toLowerCase := toLowerCase W;
     toUpperCase := toUpperCase W;
     numberToString := numberToString W;
     searchKnowledgeBase := searchKnowledgeBase W;
     searchSIETKWebsite := searchSIETKWebsite W;
     searchTavily := fun query => snd (Tavily.searchTavily TAVILY_API_KEY fetch query);
     fetchGemini := fetchGemini W;
     fetchGroq := fetchGroq W |}.

(** ** A concrete world

    ASCII case mapping for the host built-ins, a key derivation that keeps
    the normalized query as it is, a printer for the confidence constants of
    the source, and collaborators given as tables.  Used to run the model
    on concrete requests. *)

Module Demo.

Definition ascii_lower (s : jsstring) : jsstring :=
  List.map (fun u => if ((65 <=? u) && (u <=? 90))%N then (u + 32)%N else u) s.

Definition ascii_upper (s : jsstring) : jsstring :=
  List.map (fun u => if ((97 <=? u) && (u <=? 122))%N then (u - 32)%N else u) s.

Definition print_confidence (q : Q) : jsstring :=
  if Qeq_bool q 0 then lit "0"
  else if Qeq_bool q 0.1 then lit "0.1"
  else if Qeq_bool q 0.85 then lit "0.85"
  else if Qeq_bool q 0.9 then lit "0.9"
  else if Qeq_bool q 0.95 then lit "0.95"
  else lit "NaN".

Definition text_response (t : jsstring) : http_response :=
  {| ok := true; statusText := lit "OK"; extracted := Some (Some t) |}.

(** A response whose body parses but has no candidate text. *)
Definition shapeless_response : http_response :=
  {| ok := true; statusText := lit "OK"; extracted := Some None |}.

Definition unavailable_response : http_response :=
  {| ok := false; statusText := lit "Service Unavailable"; extracted := None |}.

(** Knowledge base with one entry, both searches answer in time, the
    primary provider answers, no secondary credential. *)
Definition world : World :=
  {| GEMINI_API_KEY := Some (lit "g-key");
     GROQ_API_KEY := None;
     sha256hex := fun s => s;
     toLowerCase := ascii_lower;
     toUpperCase := ascii_upper;
     numberToString := print_confidence;
     searchKnowledgeBase := fun q =>
       if decide (q = lit "fees") then lit "Fee details are on the notice board." else [];
     searchSIETKWebsite := fun _ => {| latency := 300; outcome := Fulfilled (lit "site") |};
     searchTavily := fun _ => {| latency := 400; outcome := Fulfilled (lit "web") |};
     fetchGemini := fun _ _ => {| latency := 900; outcome := Fulfilled (text_response (lit "answer")) |};
     fetchGroq := fun _ _ => {| latency := 700; outcome := Fulfilled (text_response (lit "backup")) |} |}.

(** The same world with other provider behaviour. *)
Definition with_providers (gemini groq : promise http_response)
    (groqKey : option jsstring) : World :=
  {| GEMINI_API_KEY := GEMINI_API_KEY world;
     GROQ_API_KEY := groqKey;
     sha256hex := sha256hex world;
     toLowerCase := toLowerCase world;
     toUpperCase := toUpperCase world;
     numberToString := numberToString world;
     searchKnowledgeBase := searchKnowledgeBase world;
     searchSIETKWebsite := searchSIETKWebsite world;
     searchTavily := searchTavily world;
     fetchGemini := fun _ _ => gemini;
     fetchGroq := fun _ _ => groq |}.

(** The same world with other search behaviour. *)
Definition with_searches (exa tavily : promise jsstring) : World :=
  {| GEMINI_API_KEY := GEMINI_API_KEY world;
     GROQ_API_KEY := GROQ_API_KEY world;
     sha256hex := sha256hex world;
     toLowerCase := toLowerCase world;
     toUpperCase := toUpperCase world;
     numberToString := numberToString world;
     searchKnowledgeBase := searchKnowledgeBase world;
     searchSIETKWebsite := fun _ => exa;
     searchTavily := fun _ => tavily;
     fetchGemini := fetchGemini world;
     fetchGroq := fetchGroq world |}.

Definition start : state := {| cache := ∅; clock := 1000000; log := [] |}.

Definition user (text : string) : Message.t :=
  {| Message.role := Some (lit "user"); Message.content := lit text |}.

Definition assistant (text : string) : Message.t :=
  {| Message.role := Some (lit "assistant"); Message.content := lit text |}.

End Demo.

(** The world [W] without the primary credential. *)
Definition without_gemini_key (W : World) : World :=
  {| GEMINI_API_KEY := None;
     GROQ_API_KEY := GROQ_API_KEY W;
     sha256hex := sha256hex W;
     toLowerCase := toLowerCase W;
     toUpperCase := toUpperCase W;
     numberToString := numberToString W;
     searchKnowledgeBase := searchKnowledgeBase W;
     searchSIETKWebsite := searchSIETKWebsite W;
     searchTavily := searchTavily W;
     fetchGemini := fetchGemini W;
     fetchGroq := fetchGroq W |}.

(** ** Vocabulary of the specification

    Definitions that follow the wording of the specification, to compare
    the code with. *)

(** StreamEmitter contract: the answer split into pieces of [n] units in
    original order; only the last piece can be shorter. *)
Equations? split_chunks (n : nat) (s : jsstring) : list jsstring
  by wf (length s) lt :=
  split_chunks 0 s := [];
  split_chunks (S n) [] := [];
  split_chunks (S n) (u :: s) := take (S n) (u :: s) :: split_chunks (S n) (drop (S n) (u :: s)).
Proof. simpl. rewrite length_drop. lia. Qed.

(** PromptBuilder contract: the history without its last message (the
    current query), then at most the last 4 of what remains. *)
Definition recent_window (history : list Message.t) : list Message.t :=
  let earlier := removelast history in
  drop (length earlier - 4) earlier.

(** A string without surrogate code units. *)
Definition plain (s : jsstring) : Prop := Forall (fun u => is_surrogate u = false) s.

(** An answer whose 20th and 21st code units are the two halves of U+1F600. *)
Definition emoji_answer : jsstring := repeat 97%N 19 ++ [55357; 56832]%N.

(** GenerationFallbackChain, one attempt against a timer of [ms]
    milliseconds.  The attempt fails ([None]) on a network failure, on a
    response whose status is not a success, on a body that cannot be read,
    and when nothing has arrived by the time the timer fires.  A successful,
    readable response gives its text, the empty text when the text field is
    missing. *)
Definition attempt (p : promise http_response) (ms : Z) : option jsstring :=
  match outcome p with
  | Rejected _ => None
  | Fulfilled response =>
      if ms <? latency p then None
      else if ok response then
        match extracted response with
        | None => None
        | Some None => Some []
        | Some (Some text) => Some text
        end
      else None
  end.

(** The same as a proposition: what "the attempt failed or timed out" means. *)
Definition failed (p : promise http_response) (ms : Z) : Prop :=
  (exists reason, outcome p = Rejected reason)
  \/ ms < latency p
  \/ (exists response, outcome p = Fulfilled response
                       /\ (ok response = false \/ extracted response = None)).

(** Every message of [ms] has a role. *)
Definition roles_present (ms : list Message.t) : bool :=
  forallb (fun m => match Message.role m with Some _ => true | None => false end) ms.

(** The history line of a message that has the role [role]. *)
Definition history_line (W : World) (role : jsstring) (m : Message.t) : jsstring :=
  toUpperCase W role ++ lit ": " ++ Message.content m.

(** The history lines of messages: nothing when one of them has no role. *)
Fixpoint history_lines (W : World) (ms : list Message.t) : option (list jsstring) :=
  match ms with
  | [] => Some []
  | m :: rest =>
      match Message.role m, history_lines W rest with
      | Some role, Some lines => Some (history_line W role m :: lines)
      | _, _ => None
      end
  end.

(** The prompt whose history block is made of the messages [window], one
    line each joined by newlines; building it throws when one of them has no
    role. *)
Definition prompt_with (W : World) (retrieval : RetrievalResult) (query : jsstring)
    (window : list Message.t) : result jsstring :=
  match history_lines W window with
  | Some lines => Ok (prompt_template W retrieval (join nl lines) query)
  | None => Thrown TypeError
  end.

(** What was logged between two states. *)
Definition events_since (before after : state) : list event :=
  drop (length (log before)) (log after).

Definition is_search (e : event) : bool :=
  match e with
  | KbSearch _ | ExaSearch _ | TavilySearch _ => true
  | _ => false
  end.

Definition is_web_search (e : event) : bool :=
  match e with
  | ExaSearch _ | TavilySearch _ => true
  | _ => false
  end.

Definition is_put (e : event) : bool :=
  match e with
  | CachePut _ _ => true
  | _ => false
  end.

Definition is_groq (e : event) : bool :=
  match e with
  | GroqCall _ _ => true
  | _ => false
  end.

Definition is_generation (e : event) : bool :=
  match e with
  | GeminiCall _ _ | GroqCall _ _ => true
  | _ => false
  end.

(** From [st] to [st'] the cache was not touched and only events accepted
    by [allowed] were logged. *)
Definition quiet (allowed : event -> bool) (st st' : state) : Prop :=
  cache st' = cache st
  /\ exists evs, log st' = log st ++ evs /\ forallb allowed evs = true.

(** The first code unit of [w] exists and is not white space. *)
Definition starts_solid (w : jsstring) : Prop :=
  match w with
  | c :: _ => is_js_space c = false
  | [] => False
  end.

(** [x] occurs in [y] with something before or after it. *)
Definition strictly_inside (x y : jsstring) : bool :=
  (length x <? length y)%nat
  && existsb (fun k => bool_decide (take (length x) (drop k y) = x)) (seq 0 (S (length y))).

(** What the cache check of a handler sees for [query] in [st]: the stored
    answer when it is fresh and non-empty. *)
Definition cached_hit (W : World) (query : jsstring) (st : state) : option jsstring :=
  truthy_opt
    match cache st !! cache_key W query with
    | Some e => if clock st - timestamp e <? 3600000 then Some (answer e) else None
    | None => None
    end.

(** The state after [setCache] stored [text] under [key]. *)
Definition stored (key text : jsstring) (st : state) : state :=
  {| cache := <[key := {| answer := text; timestamp := clock st |}]> (cache st);
     clock := clock st;
     log := log st ++ [CachePut key {| answer := text; timestamp := clock st |}] |}.

Definition in_unit_interval (c : Q) : Prop := (0 <= c)%Q /\ (c <= 1)%Q.

(** * Properties *)

(** ** Slices *)

Lemma slice_window {A} (l : list A) (i n : nat) :
  (i < length l)%nat ->
  slice l (Z.of_nat i) (Some (Z.of_nat (i + n))) = take n (drop i l).
Proof.
  intros Hi. unfold slice, rel_index.
  destruct (Z.ltb_spec (Z.of_nat i) 0); [lia|].
  destruct (Z.ltb_spec (Z.of_nat (i + n)) 0); [lia|].
  rewrite (Z.min_l (Z.of_nat i)) by lia. rewrite Nat2Z.id.
  destruct (le_lt_dec (i + n) (length l)) as [Hle|Hgt].
  - rewrite Z.min_l by lia. f_equal. lia.
  - rewrite Z.min_r by lia.
    replace (Z.to_nat (Z.of_nat (length l) - Z.of_nat i)) with (length l - i)%nat by lia.
    rewrite !take_ge; [reflexivity| |]; rewrite length_drop; lia.
Qed.

Lemma slice_last_n {A} (l : list A) (n : nat) :
  (0 < n)%nat ->
  slice l (- Z.of_nat n) None = drop (length l - n) l.
Proof.
  intros Hn. unfold slice, rel_index.
  destruct (Z.ltb_spec (- Z.of_nat n) 0) as [Hneg|Hpos]; [|lia].
  destruct (le_lt_dec n (length l)).
  - rewrite Z.max_l by lia.
    replace (Z.to_nat (Z.of_nat (length l) + - Z.of_nat n)) with (length l - n)%nat by lia.
    apply take_ge. rewrite length_drop. lia.
  - rewrite Z.max_r by lia.
    replace (length l - n)%nat with 0%nat by lia.
    rewrite Z.sub_0_r, Nat2Z.id. change (Z.to_nat 0) with 0%nat.
    rewrite drop_0. apply take_ge. lia.
Qed.

Lemma slice_drop_last {A} (l : list A) :
  slice l 0 (Some (-1)) = take (length l - 1) l.
Proof.
  unfold slice, rel_index. simpl.
  rewrite Z.min_l by lia. simpl. rewrite drop_0, Z.sub_0_r.
  f_equal. lia.
Qed.

Lemma slice_drop_last_snoc {A} (l : list A) (x : A) :
  slice (l ++ [x]) 0 (Some (-1)) = l.
Proof.
  rewrite slice_drop_last, length_app. simpl.
  replace (length l + 1 - 1)%nat with (length l) by lia.
  apply take_app_length.
Qed.

(** ** Stream emitter *)

Example push_demo :
  push (lit "abcdefghijklmnopqrstuvwxyz") 0
  = [Enqueue (lit "abcdefghijklmnopqrst"); Enqueue (lit "uvwxyz"); Close].
Proof. vm_compute. reflexivity. Qed.

Lemma push_split (text : jsstring) (i : nat) :
  push text i
  = List.map (fun c => Enqueue (encode c)) (split_chunks chunkSize (drop i text)) ++ [Close].
Proof.
  funelim (push text i).
  - rewrite drop_ge by lia. reflexivity.
  - rewrite slice_window by lia.
    rewrite H. rewrite <- (drop_drop text chunkSize i).
    destruct (drop i text) as [|u rest] eqn:Hd.
    + apply (f_equal length) in Hd. rewrite length_drop in Hd. simpl in Hd. lia.
    + unfold chunkSize. simp split_chunks. reflexivity.
Qed.

Lemma split_chunks_concat (n : nat) (s : jsstring) :
  (0 < n)%nat -> concat (split_chunks n s) = s.
Proof.
  intros Hn. funelim (split_chunks n s); simp split_chunks; try lia; try reflexivity.
  rewrite concat_cons, H by lia. apply (take_drop (S n) (u :: s)).
Qed.

Lemma split_chunks_sizes (n : nat) (s : jsstring) :
  Forall (fun c => (0 < length c <= n)%nat) (split_chunks n s).
Proof.
  funelim (split_chunks n s); simp split_chunks; try constructor; try assumption.
  rewrite length_take. simpl. lia.
Qed.

Lemma received_enqueued {A} (f : A -> list N) (cs : list A) :
  received (List.map (fun c => Enqueue (f c)) cs ++ [Close]) = concat (List.map f cs).
Proof.
  induction cs as [|c cs IH]; simpl; [reflexivity|]. now rewrite IH.
Qed.

Lemma encode_plain_cons (u : N) (s : jsstring) :
  is_surrogate u = false -> encode (u :: s) = utf8_scalar u ++ encode s.
Proof.
  unfold is_surrogate. intros H. apply orb_false_elim in H as [Hh Hl].
  simpl. now rewrite Hh, Hl.
Qed.

Lemma encode_plain_app (a b : jsstring) :
  plain a -> encode (a ++ b) = encode a ++ encode b.
Proof.
  induction 1 as [|u a Hu _ IH]; [reflexivity|].
  rewrite <- app_comm_cons, !encode_plain_cons, IH by assumption.
  now rewrite app_assoc.
Qed.

Lemma encode_split_plain (n : nat) (s : jsstring) :
  (0 < n)%nat -> plain s ->
  concat (List.map encode (split_chunks n s)) = encode s.
Proof.
  intros Hn. funelim (split_chunks n s); simp split_chunks; try lia; try reflexivity.
  intros Hp. rewrite map_cons, concat_cons, H; [|lia|now apply Forall_drop].
  rewrite <- encode_plain_app by now apply Forall_take.
  now rewrite (take_drop (S n) (u :: s)).
Qed.

(** Without surrogates in the answer the bytes received are the UTF-8
    encoding of the answer. *)
Lemma received_plain (text : jsstring) :
  plain text -> received (push text 0) = encode text.
Proof.
  intros Hp. rewrite push_split, received_enqueued, drop_0.
  apply encode_split_plain; [unfold chunkSize; lia | assumption].
Qed.

(** The stream is the 20-unit pieces of the answer, each encoded on its
    own, followed by the close; the pieces put together are the answer. *)
Lemma createStreamResponse_chunks (text : jsstring) :
  body (createStreamResponse text)
  = Stream (List.map (fun c => Enqueue (encode c)) (split_chunks 20 text) ++ [Close])
  /\ concat (split_chunks 20 text) = text
  /\ Forall (fun c => (0 < length c <= 20)%nat) (split_chunks 20 text).
Proof.
  split; [|split].
  - simpl. now rewrite push_split, drop_0.
  - apply split_chunks_concat. lia.
  - apply split_chunks_sizes.
Qed.

(** C5, at the answer [emoji_answer]: the first chunk ends with the high
    surrogate and the second chunk is the low surrogate, each is encoded on
    its own as U+FFFD, and the bytes received differ from the UTF-8 encoding
    of the answer. *)
Theorem stream_breaks_split_surrogate_pair :
  body (createStreamResponse emoji_answer)
  = Stream [Enqueue (repeat 97%N 19 ++ replacement); Enqueue replacement; Close]
  /\ received (push emoji_answer 0) = repeat 97%N 19 ++ replacement ++ replacement
  /\ encode emoji_answer = repeat 97%N 19 ++ [240; 159; 152; 128]%N
  /\ received (push emoji_answer 0) <> encode emoji_answer.
Proof.
  assert (Hp : push emoji_answer 0
               = [Enqueue (repeat 97%N 19 ++ replacement); Enqueue replacement; Close])
    by (vm_compute; reflexivity).
  split; [simpl; now rewrite Hp|].
  rewrite Hp. split; [reflexivity|]. split; [reflexivity|].
  vm_compute. discriminate.
Qed.

(** C10: for the empty answer the emitter enqueues nothing and closes at
    once, so the response is a closed, empty plain-text stream with status
    200; and the empty answer is what the generation step returns when the
    primary provider's response is [ok] but has no text where it is looked
    for. *)
Theorem empty_answer_closes_at_once :
  createStreamResponse []
  = {| status := 200; headers := stream_headers; body := Stream [Close] |}
  /\ received [Close] = []
  /\ In (lit "Content-Type", lit "text/plain; charset=utf-8") (headers (createStreamResponse []))
  /\ forall (W : World) (prompt key : jsstring) (st : state) (d : Z) (r : http_response),
       fetchGemini W prompt key = {| latency := d; outcome := Fulfilled r |} ->
       d < 3500 -> ok r = true -> extracted r = Some None ->
       fst (generateWithFallback W prompt key st) = Ok [].
Proof.
  split; [reflexivity|]. split; [reflexivity|]. split; [now left|].
  intros W prompt key st d r Hf Hd Hok Hex.
  unfold generateWithFallback, try_catch, bind, callGemini, emit, ret, await_race.
  simpl. rewrite Hf. simpl.
  destruct (Z.leb_spec d 3500); [|lia].
  unfold await, bind, elapse, settle. simpl. rewrite Hok, Hex. reflexivity.
Qed.

Lemma empty_answer_closes_at_once_witness :
  fst (generateWithFallback
         (Demo.with_providers {| latency := 120; outcome := Fulfilled Demo.shapeless_response |}
                              (fetchGroq Demo.world [] []) None)
         (lit "prompt") (lit "g-key") Demo.start) = Ok [].
Proof.
  apply (proj2 (proj2 (proj2 empty_answer_closes_at_once)))
    with (d := 120) (r := Demo.shapeless_response); [reflexivity | lia | reflexivity | reflexivity].
Defined.

(** ** Event log *)

Lemma events_since_app (st st' : state) (evs : list event) :
  log st' = log st ++ evs -> events_since st st' = evs.
Proof.
  intros H. unfold events_since. rewrite H. apply drop_app_length.
Qed.

Ltac run_monad :=
  unfold try_catch, bind, emit, ret, throw, await_race, await, elapse, settle,
    Date_now; simpl.

Ltac since :=
  erewrite events_since_app; [|simpl; rewrite <- ?app_assoc; reflexivity].

(** ** Response cache *)

Lemma getCached_run (W : World) (query : jsstring) (st : state) :
  getCached W query st
  = (Ok (match cache st !! cache_key W query with
         | Some e => if clock st - timestamp e <? 3600000 then Some (answer e) else None
         | None => None
         end), st).
Proof.
  unfold getCached. run_monad.
  destruct (cache st !! cache_key W query) as [e|]; [|reflexivity].
  now destruct (clock st - timestamp e <? 3600000).
Qed.

(** C7: [getCached] answers with the stored text exactly when an entry is
    stored under the hash of the lower-cased, trimmed query and its age
    [now - timestamp] is below 3600000 ms; it never changes the cache, so an
    expired entry stays where it is; a later [setCache] for the same key
    replaces it, one for another key leaves it. *)
Theorem getCached_hit_iff_fresh (W : World) (query : jsstring) (st : state) :
  cache_key W query = sha256hex W (trim (toLowerCase W query))
  /\ snd (getCached W query st) = st
  /\ (forall a : jsstring,
        fst (getCached W query st) = Ok (Some a)
        <-> exists e, cache st !! cache_key W query = Some e
                      /\ answer e = a
                      /\ clock st - timestamp e < 3600000)
  /\ (fst (getCached W query st) = Ok None
      <-> forall e, cache st !! cache_key W query = Some e ->
                    3600000 <= clock st - timestamp e)
  /\ (forall text : jsstring,
        cache (snd (setCache W query text st)) !! cache_key W query
        = Some {| answer := text; timestamp := clock st |})
  /\ (forall other text : jsstring,
        cache_key W other <> cache_key W query ->
        cache (snd (setCache W other text st)) !! cache_key W query
        = cache st !! cache_key W query).
Proof.
  split; [reflexivity|].
  rewrite getCached_run. simpl.
  split; [reflexivity|]. split; [|split; [|split]].
  - intros a. destruct (cache st !! cache_key W query) as [e|].
    + destruct (Z.ltb_spec (clock st - timestamp e) 3600000) as [Hlt|Hge]; split.
      * intros [= <-]. now exists e.
      * intros (e' & [= <-] & <- & _). reflexivity.
      * discriminate.
      * intros (e' & [= <-] & _ & Hlt). lia.
    + split; [discriminate|]. intros (e' & He & _). discriminate.
  - destruct (cache st !! cache_key W query) as [e|].
    + destruct (Z.ltb_spec (clock st - timestamp e) 3600000) as [Hlt|Hge]; split.
      * discriminate.
      * intros H. specialize (H e eq_refl). lia.
      * intros _ e' [= <-]. exact Hge.
      * reflexivity.
    + split; [intros _ e'; discriminate | reflexivity].
  - intros text. unfold setCache. run_monad. apply lookup_insert_eq.
  - intros other text Hne. unfold setCache. run_monad. now apply lookup_insert_ne.
Qed.

Lemma getCached_hit_iff_fresh_witness :
  fst (getCached Demo.world (lit "  FEES ")
         {| cache := {[ lit "fees" := {| answer := lit "stored"; timestamp := 1000 |} ]};
            clock := 3600999; log := [] |})
  = Ok (Some (lit "stored")).
Proof.
  apply (proj1 (proj2 (proj2 (getCached_hit_iff_fresh Demo.world (lit "  FEES ") _)))).
  exists {| answer := lit "stored"; timestamp := 1000 |}.
  split; [|split; [reflexivity|simpl; lia]].
  change (cache_key Demo.world (lit "  FEES ")) with (lit "fees").
  apply lookup_singleton_eq.
Defined.

(** ** Tiered retrieval *)

(** C3: with non-empty knowledge-base content, [tieredRetrieval] returns
    that content with confidence 0.95 and the single source label
    [Knowledge Base]; the only call made is the knowledge-base lookup. *)
Theorem tier1_short_circuit (W : World) (query : jsstring) (st : state) :
  searchKnowledgeBase W query <> [] ->
  tieredRetrieval W query st
  = (Ok {| content := searchKnowledgeBase W query;
           confidence := 0.95;
           sources := [lit "Knowledge Base"] |},
     {| cache := cache st; clock := clock st; log := log st ++ [KbSearch query] |})
  /\ events_since st (snd (tieredRetrieval W query st)) = [KbSearch query]
  /\ existsb is_web_search (events_since st (snd (tieredRetrieval W query st))) = false.
Proof.
  intros Hkb.
  assert (Heq : tieredRetrieval W query st
                = (Ok {| content := searchKnowledgeBase W query;
                         confidence := 0.95;
                         sources := [lit "Knowledge Base"] |},
                   {| cache := cache st; clock := clock st;
                      log := log st ++ [KbSearch query] |})).
  { unfold tieredRetrieval. run_monad.
    destruct (searchKnowledgeBase W query); [congruence | reflexivity]. }
  rewrite Heq. split; [reflexivity|]. simpl. since. now split.
Qed.

Lemma tier1_short_circuit_witness :
  existsb is_web_search
    (events_since Demo.start (snd (tieredRetrieval Demo.world (lit "fees") Demo.start)))
  = false.
Proof.
  apply (tier1_short_circuit Demo.world (lit "fees") Demo.start).
  vm_compute. discriminate.
Defined.



(** ** Confidence *)

(** C6: every confidence produced by tiered retrieval (0.95, 0.85, 0, 0.1),
    by the unified search (0.9, 0) and by the general-chat skip (0) lies in
    [0, 1].  The constants are read as the decimals the source writes. *)
Theorem confidence_in_unit_interval :
  (forall W query st, exists r,
      fst (tieredRetrieval W query st) = Ok r /\ in_unit_interval (confidence r))
  /\ (forall W query st, exists r,
      fst (Unified.runUnifiedSearch W query st) = Ok r
      /\ in_unit_interval (Unified.search_confidence r))
  /\ (forall W isChat query st, exists r,
      fst (Unified.gather W isChat query st) = Ok r
      /\ in_unit_interval (Unified.search_confidence r)).
Proof.
  assert (Hu : forall W query st, exists r,
             Unified.runUnifiedSearch W query st
             = (Ok r, {| cache := cache st;
                         clock := clock st + Z.max (latency (searchSIETKWebsite W query))
                                                   (latency (searchTavily W query));
                         log := log st ++ [KbSearch query; ExaSearch query; TavilySearch query] |})
             /\ in_unit_interval (Unified.search_confidence r)).
  { intros W query st. unfold Unified.runUnifiedSearch. run_monad.
    rewrite <- !app_assoc. simpl.
    eexists. split; [reflexivity|]. simpl.
    destruct (truthy (searchKnowledgeBase W query)
              || truthy (fulfilled_or_empty (outcome (searchSIETKWebsite W query)))
              || truthy (fulfilled_or_empty (outcome (searchTavily W query))));
      unfold in_unit_interval, Qle; simpl; lia. }
  split; [|split].
  - intros W query st. unfold tieredRetrieval. run_monad.
    destruct (truthy (searchKnowledgeBase W query)).
    + eexists. split; [reflexivity|]. unfold in_unit_interval, Qle; simpl; lia.
    + destruct (Z.max (latency (searchSIETKWebsite W query))
                      (latency (searchTavily W query)) <=? 1500); simpl.
      * destruct (negb (truthy (fulfilled_or_empty (outcome (searchSIETKWebsite W query))))
                  && negb (truthy (fulfilled_or_empty (outcome (searchTavily W query)))));
          eexists; (split; [reflexivity|]); unfold in_unit_interval, Qle; simpl; lia.
      * eexists. split; [reflexivity|]. unfold in_unit_interval, Qle; simpl; lia.
  - intros W query st. destruct (Hu W query st) as (r & Hr & Hc).
    exists r. now rewrite Hr.
  - intros W [|] query st; unfold Unified.gather.
    + eexists. split; [reflexivity|]. unfold in_unit_interval, Qle; simpl; lia.
    + unfold bind. destruct (Hu W query st) as (r & Hr & Hc). rewrite Hr.
      eexists. split; [reflexivity|]. exact Hc.
Qed.

(** ** Generation fallback chain *)

(** What counts as a failed attempt, read on [callGemini] and [callGroq]
    under the race of [generateWithFallback]. *)
Lemma attempt_read (p : promise http_response) (ms : Z) :
  attempt p ms
  = if latency p <=? ms then
      match read_text (outcome p) with
      | Fulfilled text => Some text
      | Rejected _ => None
      end
    else None.
Proof.
  unfold attempt, read_text.
  destruct (outcome p) as [r|e].
  - destruct (Z.ltb_spec ms (latency p)), (Z.leb_spec (latency p) ms); try lia;
      [reflexivity|].
    destruct (ok r); [|reflexivity]. simpl.
    destruct (extracted r) as [[text|]|]; reflexivity.
  - now destruct (latency p <=? ms).
Qed.

Lemma generateWithFallback_run (W : World) (prompt key : jsstring) (st : state) :
  let primary := attempt (fetchGemini W prompt key) 3500 in
  let groqKey := truthy_opt (GROQ_API_KEY W) in
  let out := generateWithFallback W prompt key st in
  fst out
  = Ok (match primary with
        | Some text => text
        | None =>
            match groqKey with
            | Some k =>
                match attempt (fetchGroq W prompt k) 5000 with
                | Some text => text
                | None => apology
                end
            | None => apology
            end
        end)
  /\ log (snd out)
     = log st ++ GeminiCall prompt key
                 :: match primary, groqKey with
                    | None, Some k => [GroqCall prompt k]
                    | _, _ => []
                    end
  /\ cache (snd out) = cache st.
Proof.
  intros primary groqKey out. subst primary groqKey out.
  unfold generateWithFallback, callGemini, callGroq.
  destruct (truthy_opt (GROQ_API_KEY W)) as [k|]; rewrite ?attempt_read; run_monad.
  all: destruct (latency (fetchGemini W prompt key) <=? 3500); simpl.
  all: try (destruct (read_text (outcome (fetchGemini W prompt key))); simpl).
  all: try (repeat split; reflexivity).
  all: destruct (latency (fetchGroq W prompt k) <=? 5000); simpl;
       [destruct (read_text (outcome (fetchGroq W prompt k))); simpl|].
  all: rewrite <- ?app_assoc; repeat split; reflexivity.
Qed.

Lemma attempt_failed (p : promise http_response) (ms : Z) :
  attempt p ms = None <-> failed p ms.
Proof.
  unfold attempt, failed. destruct (outcome p) as [r|e].
  - destruct (Z.ltb_spec ms (latency p)) as [Hlate|Hin].
    + split; [intros _; right; now left | reflexivity].
    + destruct (ok r) eqn:Hok; [destruct (extracted r) as [[text|]|] eqn:Hex|].
      * split; [discriminate|].
        intros [[reason H]|[H|(r' & [= <-] & [H|H])]]; try discriminate; try congruence; lia.
      * split; [discriminate|].
        intros [[reason H]|[H|(r' & [= <-] & [H|H])]]; try discriminate; try congruence; lia.
      * split; [|reflexivity]. intros _. right. right. exists r. split; [reflexivity | now right].
      * split; [|reflexivity]. intros _. right. right. exists r. split; [reflexivity | now left].
  - split; [|reflexivity]. intros _. left. now exists e.
Qed.

(** C4: [generateWithFallback] always returns a text.  It is the primary
    provider's text when the primary attempt gives one no later than
    3500 ms; otherwise, with a non-empty secondary credential, the secondary
    provider's text when that attempt gives one no later than 5000 ms; in
    every remaining case the fixed apology.  The secondary provider is
    called exactly when the primary attempt failed (network failure, status
    not ok, unreadable body) or timed out and the secondary credential is
    set.  The cache is left alone. *)
Theorem fallback_chain (W : World) (prompt key : jsstring) (st : state) :
  let primary := attempt (fetchGemini W prompt key) 3500 in
  let groqKey := truthy_opt (GROQ_API_KEY W) in
  let out := generateWithFallback W prompt key st in
  fst out
  = Ok (match primary with
        | Some text => text
        | None =>
            match groqKey with
            | Some k =>
                match attempt (fetchGroq W prompt k) 5000 with
                | Some text => text
                | None => apology
                end
            | None => apology
            end
        end)
  /\ events_since st (snd out)
     = GeminiCall prompt key
       :: match primary, groqKey with
          | None, Some k => [GroqCall prompt k]
          | _, _ => []
          end
  /\ (existsb is_groq (events_since st (snd out)) = true
      <-> primary = None /\ is_Some groqKey)
  /\ cache (snd out) = cache st
  /\ (existsb is_groq (events_since st (snd out)) = true
      <-> failed (fetchGemini W prompt key) 3500 /\ is_Some groqKey)
  /\ (failed (fetchGemini W prompt key) 3500 ->
      (forall k, groqKey = Some k -> failed (fetchGroq W prompt k) 5000) ->
      fst out = Ok apology).
Proof.
  intros primary groqKey out.
  destruct (generateWithFallback_run W prompt key st) as (Hans & Hlog & Hcache).
  fold primary groqKey out in Hans, Hlog, Hcache.
  apply events_since_app in Hlog.
  assert (Hiff : existsb is_groq (events_since st (snd out)) = true
                 <-> primary = None /\ is_Some groqKey).
  { rewrite Hlog. destruct primary, groqKey; simpl; split;
      try discriminate; try (intros [? ?]; discriminate);
      try (intros [_ [? ?]]; discriminate); try (split; eauto; done).
    all: intros _; reflexivity. }
  split; [exact Hans|]. split; [exact Hlog|]. split; [exact Hiff|].
  split; [exact Hcache|]. split.
  - rewrite Hiff. subst primary. now rewrite attempt_failed.
  - intros Hp Hs. rewrite Hans. apply attempt_failed in Hp. fold primary in Hp. rewrite Hp.
    destruct groqKey as [k|]; [|reflexivity].
    specialize (Hs k eq_refl). apply attempt_failed in Hs. now rewrite Hs.
Qed.

Lemma fallback_chain_witness :
  existsb is_groq
    (events_since Demo.start
       (snd (generateWithFallback
               (Demo.with_providers
                  {| latency := 4000; outcome := Fulfilled (Demo.text_response (lit "late")) |}
                  {| latency := 700; outcome := Fulfilled (Demo.text_response (lit "backup")) |}
                  (Some (lit "q-key")))
               (lit "prompt") (lit "g-key") Demo.start)))
  = true.
Proof.
  apply (proj1 (proj2 (proj2 (fallback_chain _ (lit "prompt") (lit "g-key") Demo.start)))).
  split; [reflexivity | now exists (lit "q-key")].
Defined.

(** ** Prompt builder *)

Lemma recent_window_slices (history : list Message.t) :
  slice (slice history 0 (Some (-1))) (-4) None = recent_window history.
Proof.
  unfold recent_window. rewrite slice_drop_last.
  rewrite removelast_firstn_len. replace (Init.Nat.pred (length history)) with (length history - 1)%nat by lia.
  change (-4) with (- Z.of_nat 4). apply slice_last_n. lia.
Qed.

Lemma recent_window_snoc (earlier : list Message.t) (current : Message.t) :
  recent_window (earlier ++ [current]) = drop (length earlier - 4) earlier.
Proof.
  unfold recent_window. now rewrite removelast_last.
Qed.

Lemma Array_map_render (W : World) (ms : list Message.t) :
  Array_map (render_message W) ms
  = match history_lines W ms with
    | Some lines => Ok lines
    | None => Thrown TypeError
    end.
Proof.
  induction ms as [|m ms IH]; [reflexivity|].
  cbn [Array_map history_lines]. rewrite IH. unfold render_message, history_line.
  destruct (Message.role m) as [role|]; [|reflexivity].
  now destruct (history_lines W ms).
Qed.

Lemma history_lines_roles (W : World) (ms : list Message.t) :
  roles_present ms = true <-> exists lines, history_lines W ms = Some lines.
Proof.
  induction ms as [|m ms IH]; simpl.
  - split; [now eexists | reflexivity].
  - destruct (Message.role m) as [role|]; simpl.
    + rewrite IH. split; intros [lines H].
      * rewrite H. now eexists.
      * destruct (history_lines W ms); [now eexists | discriminate].
    + split; [discriminate | intros [lines H]; discriminate].
Qed.

Lemma prompt_with_roles (W : World) (retrieval : RetrievalResult) (query : jsstring)
    (window : list Message.t) :
  (roles_present window = true ->
   exists prompt, prompt_with W retrieval query window = Ok prompt)
  /\ (roles_present window = false ->
      prompt_with W retrieval query window = Thrown TypeError).
Proof.
  unfold prompt_with. split; intros H.
  - apply (history_lines_roles W) in H as [lines ->]. now eexists.
  - destruct (history_lines W window) as [lines|] eqn:E; [|reflexivity].
    assert (roles_present window = true) by (apply (history_lines_roles W); eauto).
    congruence.
Qed.

(** The prompt builder of the handler in [src/lib/tavily-search.ts] meets
    the contract: the history block is made of the messages before the
    current query, at most the last 4 of them, in their order, one rendered
    line each (it throws when one of these has no role); the last message
    has no influence on the prompt, the query enters through the USER
    QUESTION block alone. *)
Lemma unified_prompt_contract (W : World) (retrieval : RetrievalResult)
    (query : jsstring) (history : list Message.t) :
  Unified.buildProductionPrompt W retrieval query history
  = prompt_with W retrieval query (recent_window history)
  /\ (length (recent_window history) <= 4)%nat
  /\ (exists older, removelast history = older ++ recent_window history)
  /\ (forall earlier current other,
        history = earlier ++ [current] ->
        Unified.buildProductionPrompt W retrieval query (earlier ++ [other])
        = Unified.buildProductionPrompt W retrieval query history).
Proof.
  split; [|split; [|split]].
  - unfold Unified.buildProductionPrompt, prompt_with.
    rewrite recent_window_slices, Array_map_render.
    now destruct (history_lines W (recent_window history)).
  - unfold recent_window. rewrite length_drop. lia.
  - exists (take (length (removelast history) - 4) (removelast history)).
    unfold recent_window. now rewrite take_drop.
  - intros earlier current other ->. unfold Unified.buildProductionPrompt.
    now rewrite !recent_window_slices, !recent_window_snoc.
Qed.

Lemma route_window (earlier : list Message.t) (current : Message.t) :
  slice (earlier ++ [current]) (-4) None = drop (length earlier - 3) earlier ++ [current].
Proof.
  change (-4) with (- Z.of_nat 4). rewrite slice_last_n by lia.
  rewrite length_app. simpl.
  replace (length earlier + 1 - 4)%nat with (length earlier - 3)%nat by lia.
  rewrite drop_app_le by lia. reflexivity.
Qed.

(** The prompt builder of [src/app/api/chat/route.ts] takes the last 4
    messages of the whole history: the current query is the last line of the
    history block, after at most 3 earlier messages (it throws when one of
    these four has no role). *)
Lemma route_prompt_window (W : World) (retrieval : RetrievalResult)
    (earlier : list Message.t) (current : Message.t) :
  Route.buildProductionPrompt W retrieval (Message.content current) (earlier ++ [current])
  = prompt_with W retrieval (Message.content current)
      (drop (length earlier - 3) earlier ++ [current]).
Proof.
  unfold Route.buildProductionPrompt, prompt_with.
  rewrite route_window, Array_map_render.
  now destruct (history_lines W (drop (length earlier - 3) earlier ++ [current])).
Qed.

(** C1, for [buildProductionPrompt] of [src/app/api/chat/route.ts] on a
    three-message conversation: the history block ends with the current
    query, so the query is in the prompt twice, and the prompt differs from
    the one the contract describes. *)
Theorem route_prompt_repeats_current_query :
  let history := [Demo.user "hello"; Demo.assistant "Hi there."; Demo.user "What are the fee details?"] in
  let query := lit "What are the fee details?" in
  let retrieval := {| content := lit "Fee details are on the notice board.";
                      confidence := 0.95;
                      sources := [lit "Knowledge Base"] |} in
  Route.buildProductionPrompt Demo.world retrieval query history
  = Ok (prompt_template Demo.world retrieval
          (lit "USER: hello" ++ nl ++ lit "ASSISTANT: Hi there." ++ nl
           ++ lit "USER: What are the fee details?")
          query)
  /\ prompt_with Demo.world retrieval query (recent_window history)
     = Ok (prompt_template Demo.world retrieval
             (lit "USER: hello" ++ nl ++ lit "ASSISTANT: Hi there.") query)
  /\ Route.buildProductionPrompt Demo.world retrieval query history
     <> prompt_with Demo.world retrieval query (recent_window history).
Proof.
  intros history query retrieval.
  assert (H1 : Route.buildProductionPrompt Demo.world retrieval query history
               = Ok (prompt_template Demo.world retrieval
                       (lit "USER: hello" ++ nl ++ lit "ASSISTANT: Hi there." ++ nl
                        ++ lit "USER: What are the fee details?")
                       query)) by (vm_compute; reflexivity).
  assert (H2 : prompt_with Demo.world retrieval query (recent_window history)
               = Ok (prompt_template Demo.world retrieval
                       (lit "USER: hello" ++ nl ++ lit "ASSISTANT: Hi there.") query))
    by (vm_compute; reflexivity).
  split; [exact H1|]. split; [exact H2|].
  rewrite H1, H2. intros H.
  apply (f_equal (fun r => match r with Ok text => length text | Thrown _ => 0%nat end)) in H.
  vm_compute in H. discriminate.
Qed.

(** ** Intent classifier *)

Lemma canonicalize_space (c : N) :
  is_js_space (Unified.canonicalize c) = is_js_space c.
Proof.
  unfold Unified.canonicalize, Unified.is_ascii_lower.
  destruct ((97 <=? c) && (c <=? 122))%N eqn:E; [|reflexivity].
  apply andb_prop in E as [E1 E2]. apply N.leb_le in E1, E2.
  unfold is_js_space.
  repeat match goal with
         | |- context [(?a <=? ?b)%N] => destruct (N.leb_spec a b); try lia
         | |- context [(?a =? ?b)%N] => destruct (N.eqb_spec a b); try lia
         end.
  all: reflexivity.
Qed.

Lemma match_literal_i_spec (pattern s : jsstring) :
  Unified.match_literal_i pattern s = true
  <-> List.map Unified.canonicalize pattern = List.map Unified.canonicalize s.
Proof.
  revert s. induction pattern as [|p pattern IH]; intros [|u s]; simpl;
    try (split; [reflexivity || discriminate | reflexivity || discriminate]).
  rewrite andb_true_iff, N.eqb_eq, IH. split.
  - intros [-> ->]. reflexivity.
  - intros [= -> ->]. now split.
Qed.

Lemma general_chat_test_spec (s : jsstring) :
  Unified.general_chat_test s = true
  <-> exists p, In p Unified.general_chat_phrases
                /\ List.map Unified.canonicalize p = List.map Unified.canonicalize s.
Proof.
  unfold Unified.general_chat_test. rewrite existsb_exists.
  split; intros (p & Hin & Hm); exists p; (split; [exact Hin|]);
    now apply match_literal_i_spec.
Qed.

Lemma starts_solid_canonical (x y : jsstring) :
  List.map Unified.canonicalize x = List.map Unified.canonicalize y ->
  starts_solid x -> starts_solid y.
Proof.
  destruct x as [|c x], y as [|d y]; simpl; try discriminate; try tauto.
  intros [= Hc _] Hs.
  now rewrite <- canonicalize_space, <- Hc, canonicalize_space.
Qed.

Lemma phrases_solid (p : jsstring) :
  In p Unified.general_chat_phrases -> starts_solid p /\ starts_solid (rev p).
Proof.
  intros Hin. simpl in Hin.
  repeat (destruct Hin as [<-|Hin]; [split; reflexivity|]).
  destruct Hin.
Qed.

Lemma trimStart_app (u w : jsstring) :
  starts_solid w -> trimStart (u ++ w) = trimStart u ++ w.
Proof.
  intros Hw. induction u as [|c u IH]; simpl.
  - destruct w as [|d w]; [destruct Hw|]. simpl in *. now rewrite Hw.
  - destruct (is_js_space c); [exact IH | reflexivity].
Qed.

Lemma trimStart_solid (u : jsstring) (c : N) :
  In c u -> is_js_space c = false -> trimStart u <> [].
Proof.
  induction u as [|d u IH]; simpl; [tauto|].
  intros [->|Hin] Hc.
  - now rewrite Hc.
  - destruct (is_js_space d); [now apply IH | discriminate].
Qed.

Lemma trim_around (u s v : jsstring) :
  starts_solid s -> starts_solid (rev s) ->
  trim (u ++ s ++ v) = trimStart u ++ s ++ trimEnd v.
Proof.
  intros Hs Hr. unfold trim, trimEnd.
  rewrite trimStart_app by (destruct s; [destruct Hs | exact Hs]).
  rewrite !rev_app_distr, <- app_assoc.
  rewrite trimStart_app by (destruct (rev s); [destruct Hr | exact Hr]).
  now rewrite !rev_app_distr, !rev_involutive, <- app_assoc.
Qed.

Lemma strictly_inside_intro (a x b y : jsstring) :
  a ++ x ++ b = y -> a ++ b <> [] -> strictly_inside x y = true.
Proof.
  intros <- Hne. unfold strictly_inside. apply andb_true_intro. split.
  - apply Nat.ltb_lt. rewrite !length_app.
    destruct a, b; simpl in *; try lia. congruence.
  - apply existsb_exists. exists (length a). split.
    + apply in_seq. rewrite !length_app. lia.
    + apply bool_decide_eq_true. rewrite drop_app_length. apply take_app_length.
Qed.

Lemma no_phrase_inside_another :
  forallb (fun p =>
             forallb (fun p' =>
                        negb (strictly_inside (List.map Unified.canonicalize p)
                                              (List.map Unified.canonicalize p')))
                     Unified.general_chat_phrases)
          Unified.general_chat_phrases = true.
Proof. vm_compute. reflexivity. Qed.

Lemma extra_text_never_matches (a s b : jsstring) :
  Unified.general_chat_test s = true -> a ++ b <> [] ->
  Unified.general_chat_test (a ++ s ++ b) = false.
Proof.
  intros Hs Hne. apply general_chat_test_spec in Hs as (p & Hp & Hps).
  apply not_true_is_false. intros H.
  apply general_chat_test_spec in H as (p' & Hp' & Hps').
  rewrite !map_app, <- Hps in Hps'. symmetry in Hps'.
  apply strictly_inside_intro in Hps'.
  - pose proof no_phrase_inside_another as Hall.
    rewrite forallb_forall in Hall. specialize (Hall p Hp).
    rewrite forallb_forall in Hall. specialize (Hall p' Hp').
    rewrite Hps' in Hall. discriminate.
  - intros E. apply Hne. destruct a, b; simpl in *; congruence.
Qed.

Lemma extra_words_not_general_chat (s u v : jsstring) (c : N) :
  Unified.general_chat_test s = true ->
  In c (u ++ v) -> is_js_space c = false ->
  Unified.isGeneralChat (u ++ s ++ v) = false.
Proof.
  intros Hs Hin Hc. unfold Unified.isGeneralChat.
  pose proof Hs as Hs'. apply general_chat_test_spec in Hs' as (p & Hp & Hps).
  destruct (phrases_solid p Hp) as [Hp1 Hp2].
  rewrite trim_around.
  - apply extra_text_never_matches; [exact Hs|].
    apply in_app_or in Hin as [Hin|Hin].
    + intros E. apply app_eq_nil in E as [E _]. revert E. now apply trimStart_solid with c.
    + intros E. apply app_eq_nil in E as [_ E]. unfold trimEnd in E.
      apply (f_equal (@rev N)) in E. rewrite rev_involutive in E. simpl in E.
      revert E. apply trimStart_solid with c; [|exact Hc]. now apply in_rev in Hin.
  - now apply (starts_solid_canonical p).
  - apply (starts_solid_canonical (rev p)); [|exact Hp2]. now rewrite !map_rev, Hps.
Qed.

(** ** Handlers *)

Lemma quiet_refl (allowed : event -> bool) (st : state) : quiet allowed st st.
Proof.
  split; [reflexivity|]. exists []. now rewrite app_nil_r.
Qed.

Lemma quiet_events (allowed : event -> bool) (st st' : state) :
  quiet allowed st st' -> forallb allowed (events_since st st') = true.
Proof.
  intros (_ & evs & Hlog & Hall). now rewrite (events_since_app _ _ _ Hlog).
Qed.

Lemma generateWithFallback_quiet (W : World) (prompt key : jsstring) (st : state) :
  exists text st',
    generateWithFallback W prompt key st = (Ok text, st')
    /\ quiet is_generation st st'.
Proof.
  destruct (generateWithFallback_run W prompt key st) as (Hans & Hlog & Hcache).
  destruct (generateWithFallback W prompt key st) as [r st'] eqn:E. simpl in *.
  eexists _, st'. split; [now rewrite Hans|].
  split; [exact Hcache|]. eexists. split; [exact Hlog|].
  destruct (attempt (fetchGemini W prompt key) 3500), (truthy_opt (GROQ_API_KEY W));
    reflexivity.
Qed.

Lemma latest_message (earlier : list Message.t) (current : Message.t) :
  head (slice (earlier ++ [current]) (-1) None) = Some current.
Proof.
  change (-1) with (- Z.of_nat 1). rewrite slice_last_n by lia.
  rewrite length_app. simpl.
  replace (length earlier + 1 - 1)%nat with (length earlier) by lia.
  now rewrite drop_app_length.
Qed.

(** A general-chat request goes from cache check to generation to the
    stream: nothing but generation calls is logged and the cache keeps its
    contents. *)
Lemma general_chat_request (W : World) (earlier : list Message.t)
    (current : Message.t) (st : state) :
  Unified.isGeneralChat (Message.content current) = true ->
  (exists response, fst (Unified.POST W (Some (earlier ++ [current])) st) = Ok response)
  /\ quiet is_generation st (snd (Unified.POST W (Some (earlier ++ [current])) st)).
Proof.
  intros Hchat. unfold Unified.POST.
  destruct (truthy_opt (GEMINI_API_KEY W)) as [apiKey|];
    [|split; [eexists; reflexivity | apply quiet_refl]].
  cbv beta iota zeta delta [try_catch bind ret eval read_messages].
  rewrite latest_message.
  change (Message.content <$> Some current) with (Some (Message.content current)).
  destruct (truthy_opt (Some (Message.content current))) as [userQuery|] eqn:Hq;
    [|split; [eexists; reflexivity | apply quiet_refl]].
  assert (userQuery = Message.content current) as ->.
  { simpl in Hq. destruct (truthy (Message.content current)); congruence. }
  rewrite getCached_run. simpl fst. cbv iota beta.
  match goal with
  | |- context [truthy_opt ?c] => destruct (truthy_opt c) as [hit|]
  end; [split; [eexists; reflexivity | apply quiet_refl]|].
  rewrite Hchat. cbv beta iota zeta delta [Unified.gather ret].
  match goal with
  | |- context [Unified.buildProductionPrompt W ?r ?q ?h] =>
      destruct (Unified.buildProductionPrompt W r q h) as [prompt|e]
  end; [|split; [eexists; reflexivity | apply quiet_refl]].
  destruct (generateWithFallback_quiet W prompt apiKey st) as (text & st' & -> & Hquiet).
  simpl. split; [eexists; reflexivity | exact Hquiet].
Qed.

(** C2, amended: in the handler that classifies its queries ([POST] of
    [src/lib/tavily-search.ts]), handling a request whose query is
    classified as general chat makes no cache write and leaves the cache as
    it was. *)
Theorem general_chat_never_cached (W : World) (earlier : list Message.t)
    (current : Message.t) (st : state) :
  Unified.isGeneralChat (Message.content current) = true ->
  cache (snd (Unified.POST W (Some (earlier ++ [current])) st)) = cache st
  /\ existsb is_put (events_since st (snd (Unified.POST W (Some (earlier ++ [current])) st))) = false.
Proof.
  intros Hchat.
  destruct (general_chat_request W earlier current st Hchat) as [_ Hquiet].
  split; [apply Hquiet|].
  apply quiet_events in Hquiet. rewrite forallb_forall in Hquiet.
  apply not_true_is_false. intros H. apply existsb_exists in H as (e & Hin & He).
  specialize (Hquiet e Hin). destruct e; discriminate.
Qed.

(** C2 as stated, at the request "hello" handled by [POST] of
    [src/app/api/chat/route.ts]: the query is general chat for the
    classifier, the handler has no classifier and writes the cache. *)
Lemma general_chat_cached_by_route :
  ~ (Unified.isGeneralChat (Message.content (Demo.user "hello")) = true ->
     cache (snd (Route.POST Demo.world (Some ([] ++ [Demo.user "hello"])) Demo.start))
     = cache Demo.start
     /\ existsb is_put
          (events_since Demo.start
             (snd (Route.POST Demo.world (Some ([] ++ [Demo.user "hello"])) Demo.start)))
        = false).
Proof.
  intros H. destruct (H eq_refl) as [_ Hput]. vm_compute in Hput. discriminate.
Qed.

(** The handler of [src/app/api/chat/route.ts] has no classifier: it stores
    every generated answer, the one to a greeting included. *)
Example route_stores_every_answer :
  cache (snd (Route.POST Demo.world (Some [Demo.user "hello"]) Demo.start)) !! lit "hello"
  = Some {| answer := lit "answer"; timestamp := 1001300 |}.
Proof. vm_compute. reflexivity. Qed.

Lemma general_chat_never_cached_witness :
  cache (snd (Unified.POST Demo.world (Some ([Demo.user "hi"; Demo.assistant "Hello."] ++ [Demo.user " Thanks "]))
                Demo.start))
  = cache Demo.start.
Proof.
  apply (general_chat_never_cached Demo.world [Demo.user "hi"; Demo.assistant "Hello."]
           (Demo.user " Thanks ") Demo.start).
  vm_compute. reflexivity.
Defined.

(** C9: a query is general chat exactly when its trimmed text is, up to
    ASCII letter case, one of the nine phrases; a matching text with any
    further non-blank text before or after it is not general chat; and for a
    general-chat query the retrieval step yields the empty context with
    confidence 0 without changing the state, the handler making no search
    call at all. *)
Theorem general_chat_exact_phrase :
  (forall query,
      Unified.isGeneralChat query = true
      <-> exists p, In p Unified.general_chat_phrases
                    /\ List.map Unified.canonicalize p = List.map Unified.canonicalize (trim query))
  /\ (forall s u v c,
        Unified.general_chat_test s = true ->
        In c (u ++ v) -> is_js_space c = false ->
        Unified.isGeneralChat (u ++ s ++ v) = false)
  /\ (forall W query st,
        Unified.isGeneralChat query = true ->
        Unified.gather W (Unified.isGeneralChat query) query st
        = (Ok {| Unified.context := []; Unified.search_confidence := 0.0 |}, st))
  /\ (forall W earlier current st,
        Unified.isGeneralChat (Message.content current) = true ->
        existsb is_search
          (events_since st (snd (Unified.POST W (Some (earlier ++ [current])) st))) = false).
Proof.
  split; [|split; [|split]].
  - intros query. apply general_chat_test_spec.
  - apply extra_words_not_general_chat.
  - intros W query st ->. reflexivity.
  - intros W earlier current st Hchat.
    destruct (general_chat_request W earlier current st Hchat) as [_ Hquiet].
    apply quiet_events in Hquiet. rewrite forallb_forall in Hquiet.
    apply not_true_is_false. intros H. apply existsb_exists in H as (e & Hin & He).
    specialize (Hquiet e Hin). destruct e; discriminate.
Qed.

Lemma general_chat_exact_phrase_witness :
  Unified.isGeneralChat (lit "  Good Morning ") = true
  /\ Unified.isGeneralChat (lit "oh " ++ lit "Hello" ++ lit " there") = false
  /\ Unified.gather Demo.world (Unified.isGeneralChat (lit "BYE")) (lit "BYE") Demo.start
     = (Ok {| Unified.context := []; Unified.search_confidence := 0.0 |}, Demo.start)
  /\ existsb is_search
       (events_since Demo.start (snd (Unified.POST Demo.world (Some ([] ++ [Demo.user "hey"])) Demo.start)))
     = false.
Proof.
  destruct general_chat_exact_phrase as (H1 & H2 & H3 & H4).
  split; [|split; [|split]].
  - apply H1. exists (lit "good morning"). split; [|reflexivity].
    simpl. do 6 right. now left.
  - apply (H2 (lit "Hello") (lit "oh ") (lit " there") 111%N);
      [reflexivity | now left | reflexivity].
  - apply H3. reflexivity.
  - apply H4. reflexivity.
Defined.

(** * Further properties *)

(** ** Stream layout *)

Lemma push_step (text : jsstring) (i : nat) :
  push text i
  = if ge_dec i (length text) then [Close]
    else Enqueue (encode (slice text (Z.of_nat i) (Some (Z.of_nat (i + chunkSize)))))
         :: push text (i + chunkSize).
Proof.
  funelim (push text i); rewrite Heq; reflexivity.
Qed.

Lemma chunk_count_step (d : nat) :
  (0 < d)%nat -> ((d + 19) / 20 = S ((d - 20 + 19) / 20))%nat.
Proof.
  intros Hd. destruct (le_lt_dec 20 d) as [H|H].
  - replace (d + 19)%nat with ((d - 20 + 19) + 1 * 20)%nat by lia.
    rewrite Nat.div_add by lia. lia.
  - replace (d - 20)%nat with 0%nat by lia. simpl (0 + 19)%nat.
    rewrite (Nat.div_small 19 20) by lia.
    symmetry. apply (Nat.div_unique (d + 19) 20 1 (d - 1)); lia.
Qed.

Lemma push_length (text : jsstring) (i : nat) :
  length (push text i) = S ((length text - i + 19) / 20).
Proof.
  funelim (push text i).
  - replace (length text - i)%nat with 0%nat by lia. reflexivity.
  - simpl length. rewrite H.
    rewrite (chunk_count_step (length text - i)) by lia.
    unfold chunkSize. do 3 f_equal. lia.
Qed.

Lemma push_lookup_chunk (text : jsstring) (k i : nat) :
  (i + 20 * k < length text)%nat ->
  push text i !! k = Some (Enqueue (encode (take 20 (drop (i + 20 * k) text)))).
Proof.
  revert i. induction k as [|k IH]; intros i Hk; rewrite push_step;
    (destruct (ge_dec i (length text)); [lia|]).
  - rewrite slice_window by lia.
    replace (i + 20 * 0)%nat with i by lia. reflexivity.
  - change ((?x :: ?l) !! S k) with (l !! k).
    rewrite IH by (unfold chunkSize; lia).
    replace (i + chunkSize + 20 * k)%nat with (i + 20 * S k)%nat by (unfold chunkSize; lia).
    reflexivity.
Qed.

Lemma push_lookup_close (text : jsstring) (i : nat) :
  push text i !! ((length text - i + 19) / 20)%nat = Some Close.
Proof.
  funelim (push text i).
  - replace (length text - i)%nat with 0%nat by lia. reflexivity.
  - rewrite (chunk_count_step (length text - i)) by lia. simpl.
    replace (length text - i - 20)%nat with (length text - (i + chunkSize))%nat
      by (unfold chunkSize; lia).
    exact H.
Qed.

(** The stream of an answer of [n] code units has [ceil (n / 20)] chunks
    followed by the close and nothing after it; chunk [k] is the encoding of
    the units [20 k] to [20 k + 19] of the answer (fewer in the last one). *)
Theorem stream_layout (text : jsstring) :
  let chunks := ((length text + 19) / 20)%nat in
  length (push text 0) = S chunks
  /\ push text 0 !! chunks = Some Close
  /\ forall k, (k < chunks)%nat ->
       push text 0 !! k = Some (Enqueue (encode (take 20 (drop (20 * k) text)))).
Proof.
  intros chunks. subst chunks.
  split; [|split].
  - rewrite push_length. now rewrite Nat.sub_0_r.
  - pose proof (push_lookup_close text 0) as H. now rewrite Nat.sub_0_r in H.
  - intros k Hk. apply (push_lookup_chunk text k 0). simpl.
    destruct (le_lt_dec (length text) (20 * k)) as [Hle|Hlt]; [|lia].
    exfalso. apply (Nat.lt_irrefl k). eapply Nat.lt_le_trans; [exact Hk|].
    transitivity ((20 * k + 19) / 20)%nat.
    + apply Nat.Div0.div_le_mono. lia.
    + apply Nat.eq_le_incl. symmetry. apply (Nat.div_unique _ 20 k 19); lia.
Qed.

Lemma stream_layout_witness :
  push (lit "Placements are handled by the T&P cell.") 0 !! 1%nat
  = Some (Enqueue (encode (take 20 (drop (20 * 1) (lit "Placements are handled by the T&P cell."))))).
Proof.
  apply (proj2 (proj2 (stream_layout (lit "Placements are handled by the T&P cell.")))).
  vm_compute. lia.
Defined.

Lemma received_plain_witness :
  received (push (lit "Placements are handled by the T&P cell.") 0)
  = encode (lit "Placements are handled by the T&P cell.").
Proof.
  apply received_plain. unfold plain.
  apply (bool_decide_unpack _). vm_compute. exact I.
Defined.

(** ** Cache round trip *)

Lemma setCache_run (W : World) (query text : jsstring) (st : state) :
  setCache W query text st = (Ok tt, stored (cache_key W query) text st).
Proof. reflexivity. Qed.

(** An answer stored for a query is served for every query with the same
    lower-cased, trimmed text, as long as that key is not written again and
    less than 3600000 ms have passed on the clock; from then on the lookup
    misses. *)
Theorem cache_round_trip (W : World) (query again text : jsstring) (st later : state) :
  trim (toLowerCase W again) = trim (toLowerCase W query) ->
  cache later !! cache_key W query
  = cache (snd (setCache W query text st)) !! cache_key W query ->
  getCached W again later
  = (Ok (if clock later - clock st <? 3600000 then Some text else None), later).
Proof.
  intros Hnorm Hsame. rewrite getCached_run.
  assert (cache_key W again = cache_key W query) as ->
    by (unfold cache_key; now rewrite Hnorm).
  rewrite Hsame, setCache_run. simpl. rewrite lookup_insert_eq. simpl.
  now destruct (clock later - clock st <? 3600000).
Qed.

Lemma cache_round_trip_witness :
  getCached Demo.world (lit " What Are The FEES? ")
    {| cache := cache (snd (setCache Demo.world (lit "what are the fees?") (lit "See the notice board.") Demo.start));
       clock := clock Demo.start + 3599999;
       log := [] |}
  = (Ok (if clock Demo.start + 3599999 - clock Demo.start <? 3600000
         then Some (lit "See the notice board.") else None),
     {| cache := cache (snd (setCache Demo.world (lit "what are the fees?") (lit "See the notice board.") Demo.start));
        clock := clock Demo.start + 3599999;
        log := [] |}).
Proof.
  apply (cache_round_trip Demo.world (lit "what are the fees?") (lit " What Are The FEES? ")
           (lit "See the notice board.") Demo.start); reflexivity.
Defined.

(** ** Tiered retrieval: all branches *)

Lemma tieredRetrieval_run (W : World) (query : jsstring) (st : state) :
  let exa := fulfilled_or_empty (outcome (searchSIETKWebsite W query)) in
  let tavily := fulfilled_or_empty (outcome (searchTavily W query)) in
  let wait := Z.max (latency (searchSIETKWebsite W query)) (latency (searchTavily W query)) in
  let searched (ms : Z) :=
    {| cache := cache st; clock := clock st + ms;
       log := log st ++ [KbSearch query; ExaSearch query; TavilySearch query] |} in
  tieredRetrieval W query st
  = if truthy (searchKnowledgeBase W query) then
      (Ok {| content := searchKnowledgeBase W query; confidence := 0.95;
             sources := [lit "Knowledge Base"] |},
       {| cache := cache st; clock := clock st; log := log st ++ [KbSearch query] |})
    else if wait <=? 1500 then
      (Ok (if truthy exa || truthy tavily
           then {| content := lit "EXA: " ++ exa ++ nl ++ nl ++ lit "TAVILY: " ++ tavily;
                   confidence := 0.85; sources := [lit "Web Search"] |}
           else {| content := lit "No information found."; confidence := 0; sources := [] |}),
       searched wait)
    else
      (Ok {| content := lit "Search timed out."; confidence := 0.1; sources := [] |},
       searched 1500).
Proof.
  intros exa tavily wait searched. subst searched.
  unfold tieredRetrieval. run_monad.
  destruct (truthy (searchKnowledgeBase W query)); [reflexivity|].
  fold wait. destruct (wait <=? 1500); simpl; rewrite <- !app_assoc; simpl.
  - fold exa tavily. now destruct (truthy exa), (truthy tavily).
  - reflexivity.
Qed.

(** With an empty knowledge base, when one of the two searches settles
    later than 1500 ms after the start, the result is the placeholder
    [Search timed out.] with confidence 0.1 and no source; both searches
    were started, whatever they return later is not used, and the wait is
    1500 ms. *)
Theorem tier2_timeout (W : World) (query : jsstring) (st : state) :
  searchKnowledgeBase W query = [] ->
  1500 < latency (searchSIETKWebsite W query) \/ 1500 < latency (searchTavily W query) ->
  tieredRetrieval W query st
  = (Ok {| content := lit "Search timed out."; confidence := 0.1; sources := [] |},
     {| cache := cache st; clock := clock st + 1500;
        log := log st ++ [KbSearch query; ExaSearch query; TavilySearch query] |}).
Proof.
  intros Hkb Hlate. rewrite tieredRetrieval_run. rewrite Hkb. simpl.
  destruct (Z.leb_spec (Z.max (latency (searchSIETKWebsite W query))
                              (latency (searchTavily W query))) 1500); [lia | reflexivity].
Qed.

Lemma tier2_timeout_witness :
  tieredRetrieval
    (Demo.with_searches {| latency := 200; outcome := Fulfilled (lit "site") |}
                        {| latency := 1501; outcome := Fulfilled (lit "web") |})
    (lit "hostel") Demo.start
  = (Ok {| content := lit "Search timed out."; confidence := 0.1; sources := [] |},
     {| cache := cache Demo.start; clock := clock Demo.start + 1500;
        log := log Demo.start ++ [KbSearch (lit "hostel"); ExaSearch (lit "hostel");
                                  TavilySearch (lit "hostel")] |}).
Proof.
  apply (tier2_timeout
           (Demo.with_searches {| latency := 200; outcome := Fulfilled (lit "site") |}
                               {| latency := 1501; outcome := Fulfilled (lit "web") |})
           (lit "hostel") Demo.start); [reflexivity | right; simpl; lia].
Defined.

(** [tieredRetrieval] always returns a result, whatever the searches do;
    it leaves the cache alone, waits at most 1500 ms, looks up the knowledge
    base first and starts the two web searches exactly when the knowledge
    base gave nothing; it calls no generation provider. *)
Theorem tieredRetrieval_frame (W : World) (query : jsstring) (st : state) :
  exists r st',
    tieredRetrieval W query st = (Ok r, st')
    /\ cache st' = cache st
    /\ clock st' <= clock st + 1500
    /\ events_since st st'
       = KbSearch query
         :: if truthy (searchKnowledgeBase W query) then []
            else [ExaSearch query; TavilySearch query].
Proof.
  rewrite tieredRetrieval_run.
  destruct (truthy (searchKnowledgeBase W query)).
  - eexists _, _. split; [reflexivity|]. simpl. split; [reflexivity|].
    split; [lia|]. now since.
  - destruct (Z.leb_spec (Z.max (latency (searchSIETKWebsite W query))
                                (latency (searchTavily W query))) 1500).
    + eexists _, _. split; [reflexivity|]. simpl. split; [reflexivity|].
      split; [lia|]. now since.
    + eexists _, _. split; [reflexivity|]. simpl. split; [reflexivity|].
      split; [lia|]. now since.
Qed.

(** ** Unified search *)

Lemma runUnifiedSearch_run (W : World) (query : jsstring) (st : state) :
  exists r,
    Unified.runUnifiedSearch W query st
    = (Ok r,
       {| cache := cache st;
          clock := clock st + Z.max (latency (searchSIETKWebsite W query))
                                    (latency (searchTavily W query));
          log := log st ++ [KbSearch query; ExaSearch query; TavilySearch query] |})
    /\ (let found := truthy (searchKnowledgeBase W query)
                     || truthy (fulfilled_or_empty (outcome (searchSIETKWebsite W query)))
                     || truthy (fulfilled_or_empty (outcome (searchTavily W query))) in
        truthy (Unified.context r) = found
        /\ Unified.search_confidence r = if found then 0.9%Q else 0.0%Q).
Proof.
  unfold Unified.runUnifiedSearch. run_monad. rewrite <- !app_assoc. simpl.
  eexists. split; [reflexivity|]. simpl.
  destruct (searchKnowledgeBase W query) as [|k kb]; simpl; [|now split].
  destruct (fulfilled_or_empty (outcome (searchSIETKWebsite W query))) as [|e exa]; simpl;
    [|now split].
  destruct (fulfilled_or_empty (outcome (searchTavily W query))); simpl; now split.
Qed.


(** ** Handlers: request paths *)

Lemma tieredRetrieval_returns (W : World) (query : jsstring) (st : state) :
  exists r st', tieredRetrieval W query st = (Ok r, st').
Proof.
  rewrite tieredRetrieval_run.
  destruct (truthy (searchKnowledgeBase W query)); [now eexists _, _|].
  destruct (Z.max (latency (searchSIETKWebsite W query))
                  (latency (searchTavily W query)) <=? 1500); now eexists _, _.
Qed.

Lemma generateWithFallback_state (W : World) (prompt key : jsstring) (st : state) :
  exists text st',
    generateWithFallback W prompt key st = (Ok text, st')
    /\ cache st' = cache st
    /\ clock st' <= clock st + 8500
    /\ (exists evs, log st' = log st ++ evs /\ forallb is_generation evs = true)
    /\ (attempt (fetchGemini W prompt key) 3500 = None ->
        (forall k, truthy_opt (GROQ_API_KEY W) = Some k ->
                   attempt (fetchGroq W prompt k) 5000 = None) ->
        text = apology).
Proof.
  unfold generateWithFallback, callGemini, callGroq.
  rewrite (attempt_read (fetchGemini W prompt key)).
  destruct (truthy_opt (GROQ_API_KEY W)) as [k|]; run_monad.
  all: destruct (Z.leb_spec (latency (fetchGemini W prompt key)) 3500); simpl.
  all: try (destruct (read_text (outcome (fetchGemini W prompt key))); simpl).
  all: try (destruct (Z.leb_spec (latency (fetchGroq W prompt k)) 5000) as [Hle|Hgt]; simpl;
            [destruct (read_text (outcome (fetchGroq W prompt k))) eqn:Hr; simpl|]).
  all: eexists _, _; (split; [reflexivity|]); simpl; (split; [reflexivity|]);
       (split; [lia|]);
       (split; [eexists; split; [rewrite <- ?app_assoc; reflexivity | reflexivity]|]).
  all: try (intros Hp; discriminate Hp).
  all: intros _ Hk; try reflexivity.
  all: specialize (Hk k eq_refl); rewrite attempt_read in Hk; revert Hk.
  all: destruct (Z.leb_spec (latency (fetchGroq W prompt k)) 5000); try lia.
  all: rewrite Hr; discriminate.
Qed.

Lemma no_message : head (slice ([] : list Message.t) (-1) None) = None.
Proof. reflexivity. Qed.

Lemma truthy_opt_some (s : jsstring) :
  truthy s = true -> truthy_opt (Some s) = Some s.
Proof. simpl. now intros ->. Qed.

Lemma Route_prompt_with (W : World) (retrieval : RetrievalResult) (query : jsstring)
    (history : list Message.t) :
  Route.buildProductionPrompt W retrieval query history
  = prompt_with W retrieval query (slice history (-4) None).
Proof.
  unfold Route.buildProductionPrompt, prompt_with. rewrite Array_map_render.
  now destruct (history_lines W (slice history (-4) None)).
Qed.

Lemma Unified_prompt_with (W : World) (retrieval : RetrievalResult) (query : jsstring)
    (history : list Message.t) :
  Unified.buildProductionPrompt W retrieval query history
  = prompt_with W retrieval query (recent_window history).
Proof.
  unfold Unified.buildProductionPrompt, prompt_with.
  rewrite recent_window_slices, Array_map_render.
  now destruct (history_lines W (recent_window history)).
Qed.

(** The outcomes of [Route.POST] for a request with a key and a query. *)
Lemma Route_POST_run (W : World) (earlier : list Message.t) (current : Message.t)
    (st : state) (apiKey : jsstring) :
  truthy_opt (GEMINI_API_KEY W) = Some apiKey ->
  truthy (Message.content current) = true ->
  let query := Message.content current in
  match cached_hit W query st with
  | Some hit => Route.POST W (Some (earlier ++ [current])) st = (Ok (createStreamResponse hit), st)
  | None =>
      exists retrieval st1,
        tieredRetrieval W query st = (Ok retrieval, st1)
        /\ if roles_present (slice (earlier ++ [current]) (-4) None) then
             exists prompt text st2,
               Route.buildProductionPrompt W retrieval query (earlier ++ [current]) = Ok prompt
               /\ generateWithFallback W prompt apiKey st1 = (Ok text, st2)
               /\ Route.POST W (Some (earlier ++ [current])) st
                  = (Ok (createStreamResponse text), stored (cache_key W query) text st2)
           else
             Route.POST W (Some (earlier ++ [current])) st
             = (Ok (createStreamResponse Route.critical_error_text), st1)
  end.
Proof.
  intros Hkey Hq query. subst query. unfold Route.POST. rewrite Hkey.
  cbv beta iota zeta delta [try_catch bind ret eval read_messages].
  rewrite latest_message.
  change (Message.content <$> Some current) with (Some (Message.content current)).
  rewrite (truthy_opt_some _ Hq), getCached_run.
  fold (cached_hit W (Message.content current) st).
  destruct (cached_hit W (Message.content current) st) as [hit|]; [reflexivity|].
  destruct (tieredRetrieval_returns W (Message.content current) st)
    as (retrieval & st1 & Htier).
  rewrite Htier. exists retrieval, st1. split; [reflexivity|].
  rewrite Route_prompt_with.
  destruct (prompt_with_roles W retrieval (Message.content current)
              (slice (earlier ++ [current]) (-4) None)) as [Hok Hthrow].
  destruct (roles_present (slice (earlier ++ [current]) (-4) None)).
  - destruct (Hok eq_refl) as [prompt Hp]. rewrite Hp.
    destruct (generateWithFallback_state W prompt apiKey st1) as (text & st2 & Hgen & _).
    rewrite Hgen. exists prompt, text, st2. now split.
  - now rewrite (Hthrow eq_refl).
Qed.

(** The outcomes of [Unified.POST] for a request with a key and a query. *)
Lemma Unified_POST_run (W : World) (earlier : list Message.t) (current : Message.t)
    (st : state) (apiKey : jsstring) :
  truthy_opt (GEMINI_API_KEY W) = Some apiKey ->
  truthy (Message.content current) = true ->
  let query := Message.content current in
  match cached_hit W query st with
  | Some hit => Unified.POST W (Some (earlier ++ [current])) st = (Ok (createStreamResponse hit), st)
  | None =>
      exists found st1,
        Unified.gather W (Unified.isGeneralChat query) query st = (Ok found, st1)
        /\ if roles_present (recent_window (earlier ++ [current])) then
             exists prompt text st2,
               Unified.buildProductionPrompt W
                 {| content := Unified.context found;
                    confidence := Unified.search_confidence found;
                    sources := [] |}
                 query (earlier ++ [current]) = Ok prompt
               /\ generateWithFallback W prompt apiKey st1 = (Ok text, st2)
               /\ Unified.POST W (Some (earlier ++ [current])) st
                  = (Ok (createStreamResponse text),
                     if Unified.isGeneralChat query then st2
                     else stored (cache_key W query) text st2)
           else
             Unified.POST W (Some (earlier ++ [current])) st
             = (Ok (createStreamResponse Unified.critical_error_text), st1)
  end.
Proof.
  intros Hkey Hq query. subst query. unfold Unified.POST. rewrite Hkey.
  cbv beta iota zeta delta [try_catch bind ret eval read_messages].
  rewrite latest_message.
  change (Message.content <$> Some current) with (Some (Message.content current)).
  rewrite (truthy_opt_some _ Hq), getCached_run.
  fold (cached_hit W (Message.content current) st).
  destruct (cached_hit W (Message.content current) st) as [hit|]; [reflexivity|].
  assert (Hg : exists found st1,
             Unified.gather W (Unified.isGeneralChat (Message.content current))
               (Message.content current) st = (Ok found, st1)).
  { unfold Unified.gather. destruct (Unified.isGeneralChat (Message.content current)).
    - eexists _, _. reflexivity.
    - destruct (runUnifiedSearch_run W (Message.content current) st) as (r & Hr & _).
      unfold bind. rewrite Hr. eexists _, _. reflexivity. }
  destruct Hg as (found & st1 & Hg).
  rewrite Hg. exists found, st1. split; [reflexivity|].
  rewrite Unified_prompt_with.
  match goal with
  | |- context [prompt_with W ?r ?q ?w] =>
      destruct (prompt_with_roles W r q w) as [Hok Hthrow]
  end.
  destruct (roles_present (recent_window (earlier ++ [current]))).
  - destruct (Hok eq_refl) as [prompt Hp]. rewrite Hp.
    destruct (generateWithFallback_state W prompt apiKey st1) as (text & st2 & Hgen & _).
    rewrite Hgen. exists prompt, text, st2. split; [reflexivity|]. split; [exact Hgen|].
    destruct (Unified.isGeneralChat (Message.content current)); reflexivity.
  - now rewrite (Hthrow eq_refl).
Qed.

Lemma cached_hit_intro (W : World) (query : jsstring) (st : state) (e : CacheEntry) :
  cache st !! cache_key W query = Some e ->
  clock st - timestamp e < 3600000 ->
  answer e <> [] ->
  cached_hit W query st = Some (answer e).
Proof.
  intros He Hfresh Hne. unfold cached_hit. rewrite He.
  destruct (Z.ltb_spec (clock st - timestamp e) 3600000); [|lia].
  simpl. destruct (answer e); [congruence | reflexivity].
Qed.


(** Without [GEMINI_API_KEY] (unset or empty) both handlers answer 500 with
    the JSON error body before looking at the request: no lookup, no call,
    no cache write. *)
Theorem missing_key_rejected (W : World) (body : option (list Message.t)) (st : state) :
  truthy_opt (GEMINI_API_KEY W) = None ->
  Route.POST W body st = (Ok (error_response 500 "API key missing"), st)
  /\ Unified.POST W body st = (Ok (error_response 500 "API key missing"), st).
Proof.
  intros Hkey. unfold Route.POST, Unified.POST. now rewrite Hkey.
Qed.

Lemma missing_key_rejected_witness :
  Route.POST (without_gemini_key Demo.world) (Some [Demo.user "fees"]) Demo.start
  = (Ok (error_response 500 "API key missing"), Demo.start)
  /\ Unified.POST (without_gemini_key Demo.world) (Some [Demo.user "fees"]) Demo.start
     = (Ok (error_response 500 "API key missing"), Demo.start).
Proof.
  apply (missing_key_rejected (without_gemini_key Demo.world)). reflexivity.
Defined.

(** With a key, a request without messages, or whose last message has an
    empty content, is answered 400 with the JSON error body by both
    handlers: no lookup, no call, no cache write. *)
Theorem missing_query_rejected (W : World) (messages : list Message.t) (st : state) :
  truthy_opt (GEMINI_API_KEY W) <> None ->
  messages = []
  \/ (exists earlier current,
        messages = earlier ++ [current] /\ Message.content current = []) ->
  Route.POST W (Some messages) st = (Ok (error_response 400 "No query found"), st)
  /\ Unified.POST W (Some messages) st = (Ok (error_response 400 "No query found"), st).
Proof.
  intros Hkey Hmsg. unfold Route.POST, Unified.POST.
  destruct (truthy_opt (GEMINI_API_KEY W)) as [apiKey|]; [|congruence].
  cbv beta iota zeta delta [try_catch bind ret eval read_messages].
  destruct Hmsg as [->|(earlier & current & -> & Hempty)].
  - rewrite no_message. split; reflexivity.
  - rewrite latest_message.
    change (Message.content <$> Some current) with (Some (Message.content current)).
    rewrite Hempty. split; reflexivity.
Qed.

Lemma missing_query_rejected_witness :
  Route.POST Demo.world (Some ([Demo.user "hi"] ++ [Demo.user ""])) Demo.start
  = (Ok (error_response 400 "No query found"), Demo.start)
  /\ Unified.POST Demo.world (Some ([Demo.user "hi"] ++ [Demo.user ""])) Demo.start
     = (Ok (error_response 400 "No query found"), Demo.start).
Proof.
  apply (missing_query_rejected Demo.world); [discriminate|].
  right. exists [Demo.user "hi"], (Demo.user ""). split; reflexivity.
Defined.

(** A request whose query has a fresh, non-empty cached answer is answered
    with the stream of that answer by both handlers, without any search or
    generation call, and the state stays as it is (the entry keeps its
    timestamp). *)
Theorem cache_hit_served (W : World) (earlier : list Message.t) (current : Message.t)
    (st : state) (e : CacheEntry) :
  truthy_opt (GEMINI_API_KEY W) <> None ->
  Message.content current <> [] ->
  cache st !! cache_key W (Message.content current) = Some e ->
  clock st - timestamp e < 3600000 ->
  answer e <> [] ->
  Route.POST W (Some (earlier ++ [current])) st = (Ok (createStreamResponse (answer e)), st)
  /\ Unified.POST W (Some (earlier ++ [current])) st = (Ok (createStreamResponse (answer e)), st).
Proof.
  intros Hkey Hq He Hfresh Hne.
  destruct (truthy_opt (GEMINI_API_KEY W)) as [apiKey|] eqn:Hk; [|congruence].
  assert (Htq : truthy (Message.content current) = true)
    by (destruct (Message.content current); [congruence | reflexivity]).
  pose proof (Route_POST_run W earlier current st apiKey Hk Htq) as HR.
  pose proof (Unified_POST_run W earlier current st apiKey Hk Htq) as HU.
  cbv zeta in HR, HU.
  rewrite (cached_hit_intro W _ st e He Hfresh Hne) in HR, HU.
  now split.
Qed.

Lemma cache_hit_served_witness :
  let st := {| cache := {[ lit "fees" := {| answer := lit "See the notice board."; timestamp := 5000 |} ]};
               clock := 9000; log := [] |} in
  Route.POST Demo.world (Some ([] ++ [Demo.user " Fees"])) st
  = (Ok (createStreamResponse (lit "See the notice board.")), st)
  /\ Unified.POST Demo.world (Some ([] ++ [Demo.user " Fees"])) st
     = (Ok (createStreamResponse (lit "See the notice board.")), st).
Proof.
  intros st.
  apply (cache_hit_served Demo.world [] (Demo.user " Fees") st
           {| answer := lit "See the notice board."; timestamp := 5000 |});
    [discriminate | discriminate | | simpl; lia | discriminate].
  change (cache_key Demo.world (Message.content (Demo.user " Fees"))) with (lit "fees").
  apply lookup_singleton_eq.
Defined.

Lemma tieredRetrieval_facts (W : World) (query : jsstring) (st st1 : state)
    (retrieval : RetrievalResult) :
  tieredRetrieval W query st = (Ok retrieval, st1) ->
  cache st1 = cache st
  /\ clock st1 <= clock st + 1500
  /\ exists rest, log st1 = log st ++ KbSearch query :: rest
                  /\ forallb is_search rest = true.
Proof.
  intros Hrun. rewrite tieredRetrieval_run in Hrun.
  destruct (truthy (searchKnowledgeBase W query)).
  - injection Hrun as _ <-. simpl. split; [reflexivity|]. split; [lia|]. now exists [].
  - destruct (Z.leb_spec (Z.max (latency (searchSIETKWebsite W query))
                                (latency (searchTavily W query))) 1500);
      injection Hrun as _ <-; simpl; (split; [reflexivity|]); (split; [lia|]);
      now eexists.
Qed.

Lemma generateWithFallback_facts (W : World) (prompt key text : jsstring) (st st2 : state) :
  generateWithFallback W prompt key st = (Ok text, st2) ->
  cache st2 = cache st
  /\ clock st2 <= clock st + 8500
  /\ (exists evs, log st2 = log st ++ evs)
  /\ (attempt (fetchGemini W prompt key) 3500 = None ->
      (forall k, truthy_opt (GROQ_API_KEY W) = Some k ->
                 attempt (fetchGroq W prompt k) 5000 = None) ->
      text = apology).
Proof.
  intros Hrun.
  destruct (generateWithFallback_state W prompt key st)
    as (text' & st' & Hrun' & Hc & Ht & (evs & Hl & _) & Ha).
  rewrite Hrun in Hrun'. injection Hrun' as <- <-.
  split; [exact Hc|]. split; [exact Ht|]. split; [now exists evs | exact Ha].
Qed.

Lemma gather_facts (W : World) (isChat : bool) (query : jsstring) (st st1 : state)
    (found : Unified.SearchResults) :
  Unified.gather W isChat query st = (Ok found, st1) ->
  cache st1 = cache st
  /\ exists evs, log st1 = log st ++ evs /\ forallb is_search evs = true.
Proof.
  unfold Unified.gather. destruct isChat.
  - intros [= _ <-]. split; [reflexivity|]. exists []. now rewrite app_nil_r.
  - destruct (runUnifiedSearch_run W query st) as (r & Hr & _).
    unfold bind. rewrite Hr. intros [= _ <-]. simpl. split; [reflexivity|]. now eexists.
Qed.

(** ** Handlers: cache effects *)





Lemma missing_key_rejected_aux (W : World) (body : option (list Message.t)) (st : state) :
  truthy_opt (GEMINI_API_KEY W) = None ->
  Route.POST W body st = (Ok (error_response 500 "API key missing"), st)
  /\ Unified.POST W body st = (Ok (error_response 500 "API key missing"), st).
Proof.
  intros Hkey. unfold Route.POST, Unified.POST. now rewrite Hkey.
Qed.

Lemma unreadable_body_aux (W : World) (st : state) (apiKey : jsstring) :
  truthy_opt (GEMINI_API_KEY W) = Some apiKey ->
  Route.POST W None st = (Ok (createStreamResponse Route.critical_error_text), st)
  /\ Unified.POST W None st = (Ok (createStreamResponse Unified.critical_error_text), st).
Proof.
  intros Hkey. unfold Route.POST, Unified.POST. now rewrite Hkey.
Qed.

Lemma no_query_aux (W : World) (messages : list Message.t) (st : state) (apiKey : jsstring) :
  truthy_opt (GEMINI_API_KEY W) = Some apiKey ->
  truthy_opt (Message.content <$> head (slice messages (-1) None)) = None ->
  Route.POST W (Some messages) st = (Ok (error_response 400 "No query found"), st)
  /\ Unified.POST W (Some messages) st = (Ok (error_response 400 "No query found"), st).
Proof.
  intros Hkey Hq. unfold Route.POST, Unified.POST. rewrite Hkey.
  cbv beta iota zeta delta [try_catch bind ret eval read_messages].
  now rewrite Hq.
Qed.

(** A request is read as one of: no key, unreadable body, no query, or a
    history ending with a message that has a query. *)
Lemma request_cases (W : World) (body : option (list Message.t)) :
  truthy_opt (GEMINI_API_KEY W) = None
  \/ exists apiKey, truthy_opt (GEMINI_API_KEY W) = Some apiKey
     /\ (body = None
         \/ (exists messages, body = Some messages
             /\ truthy_opt (Message.content <$> head (slice messages (-1) None)) = None)
         \/ (exists earlier current, body = Some (earlier ++ [current])
             /\ truthy (Message.content current) = true)).
Proof.
  destruct (truthy_opt (GEMINI_API_KEY W)) as [apiKey|]; [right|now left].
  exists apiKey. split; [reflexivity|].
  destruct body as [messages|]; [|now left]. right.
  destruct messages as [|current earlier _] using rev_ind.
  - left. exists []. now split.
  - destruct (truthy (Message.content current)) eqn:Htq.
    + right. now exists earlier, current.
    + left. exists (earlier ++ [current]). split; [reflexivity|].
      rewrite latest_message.
      change (Message.content <$> Some current) with (Some (Message.content current)).
      unfold truthy_opt. now rewrite Htq.
Qed.

(** One request changes the cache in one place at most: either the cache
    is as before, or the entry under the key of the request's own query was
    written with the time the handler finished.  Nothing is ever removed. *)
Theorem request_cache_effect (W : World) (body : option (list Message.t)) (st : state) :
  let touches (st' : state) :=
    cache st' = cache st
    \/ exists messages current text,
         body = Some messages
         /\ last messages = Some current
         /\ cache st'
            = <[cache_key W (Message.content current)
                := {| answer := text; timestamp := clock st' |}]> (cache st) in
  touches (snd (Route.POST W body st))
  /\ touches (snd (Unified.POST W body st)).
Proof.
  intros touches. subst touches. cbv beta.
  destruct (request_cases W body)
    as [Hk|(apiKey & Hk & [->|[(messages & -> & Hq)|(earlier & current & -> & Htq)]])].
  { destruct (missing_key_rejected_aux W body st Hk) as [-> ->]. split; now left. }
  { destruct (unreadable_body_aux W st apiKey Hk) as [-> ->]. split; now left. }
  { destruct (no_query_aux W messages st apiKey Hk Hq) as [-> ->]. split; now left. }
  pose proof (Route_POST_run W earlier current st apiKey Hk Htq) as HR.
  pose proof (Unified_POST_run W earlier current st apiKey Hk Htq) as HU.
  cbv zeta in HR, HU.
  destruct (cached_hit W (Message.content current) st) as [hit|].
  { rewrite HR, HU. split; now left. }
  split.
  - destruct HR as (retrieval & st1 & Ht & HR).
    apply tieredRetrieval_facts in Ht as (Hc1 & _).
    destruct (roles_present (slice (earlier ++ [current]) (-4) None)).
    + destruct HR as (prompt & text & st2 & _ & Hg & ->).
      apply generateWithFallback_facts in Hg as (Hc2 & _).
      right. exists (earlier ++ [current]), current, text.
      split; [reflexivity|]. split; [apply last_snoc|].
      unfold stored. cbn [snd cache clock]. f_equal. now transitivity (cache st1).
    + rewrite HR. now left.
  - destruct HU as (found & st1 & Hf & HU).
    apply gather_facts in Hf as (Hc1 & _).
    destruct (roles_present (recent_window (earlier ++ [current]))).
    + destruct HU as (prompt & text & st2 & _ & Hg & ->).
      apply generateWithFallback_facts in Hg as (Hc2 & _).
      destruct (Unified.isGeneralChat (Message.content current)).
      * left. now transitivity (cache st1).
      * right. exists (earlier ++ [current]), current, text.
        split; [reflexivity|]. split; [apply last_snoc|].
        unfold stored. cbn [snd cache clock]. f_equal. now transitivity (cache st1).
    + rewrite HU. now left.
Qed.

(** When no provider gives a text (the primary attempt fails or times out
    for every prompt, and so does the secondary one if its key is set), a
    request whose last four messages have a role and that misses the cache
    is answered with the apology, and [Route.POST] stores the apology like
    any answer: as long as that entry stays, every such request for the same
    query within 3600000 ms is answered with the apology from the cache,
    without asking a provider again. *)
Theorem outage_apology_is_cached (W : World) (earlier : list Message.t)
    (current : Message.t) (st : state) (apiKey : jsstring) :
  truthy_opt (GEMINI_API_KEY W) = Some apiKey ->
  Message.content current <> [] ->
  roles_present (slice (earlier ++ [current]) (-4) None) = true ->
  cached_hit W (Message.content current) st = None ->
  (forall prompt, attempt (fetchGemini W prompt apiKey) 3500 = None) ->
  (forall prompt k, truthy_opt (GROQ_API_KEY W) = Some k ->
                    attempt (fetchGroq W prompt k) 5000 = None) ->
  exists st',
    Route.POST W (Some (earlier ++ [current])) st = (Ok (createStreamResponse apology), st')
    /\ cache st' !! cache_key W (Message.content current)
       = Some {| answer := apology; timestamp := clock st' |}
    /\ forall later,
         cache later !! cache_key W (Message.content current)
         = cache st' !! cache_key W (Message.content current) ->
         clock later - clock st' < 3600000 ->
         Route.POST W (Some (earlier ++ [current])) later
         = (Ok (createStreamResponse apology), later).
Proof.
  intros Hk Hq Hroles Hmiss Hprimary Hsecondary.
  assert (Htq : truthy (Message.content current) = true)
    by (destruct (Message.content current); [congruence | reflexivity]).
  pose proof (Route_POST_run W earlier current st apiKey Hk Htq) as HR. cbv zeta in HR.
  rewrite Hmiss in HR. destruct HR as (retrieval & st1 & _ & HR). rewrite Hroles in HR.
  destruct HR as (prompt & text & st2 & _ & Hg & HR).
  apply generateWithFallback_facts in Hg as (_ & _ & _ & Ha).
  rewrite (Ha (Hprimary _) (fun k => Hsecondary _ k)) in HR.
  eexists. split; [exact HR|]. split; [apply lookup_insert_eq|].
  intros later Hsame Hfresh.
  pose proof (Route_POST_run W earlier current later apiKey Hk Htq) as HL. cbv zeta in HL.
  rewrite (cached_hit_intro W _ later {| answer := apology; timestamp := clock st2 |}) in HL.
  - exact HL.
  - rewrite Hsame. apply lookup_insert_eq.
  - exact Hfresh.
  - discriminate.
Qed.

Lemma outage_apology_is_cached_witness :
  exists st',
    Route.POST
      (Demo.with_providers {| latency := 200; outcome := Fulfilled Demo.unavailable_response |}
                           (fetchGroq Demo.world [] []) None)
      (Some ([] ++ [Demo.user "fees"])) Demo.start
    = (Ok (createStreamResponse apology), st')
    /\ cache st' !! cache_key
         (Demo.with_providers {| latency := 200; outcome := Fulfilled Demo.unavailable_response |}
                              (fetchGroq Demo.world [] []) None)
         (Message.content (Demo.user "fees"))
       = Some {| answer := apology; timestamp := clock st' |}
    /\ forall later,
         cache later !! cache_key
           (Demo.with_providers {| latency := 200; outcome := Fulfilled Demo.unavailable_response |}
                                (fetchGroq Demo.world [] []) None)
           (Message.content (Demo.user "fees"))
         = cache st' !! cache_key
             (Demo.with_providers {| latency := 200; outcome := Fulfilled Demo.unavailable_response |}
                                  (fetchGroq Demo.world [] []) None)
             (Message.content (Demo.user "fees")) ->
         clock later - clock st' < 3600000 ->
         Route.POST
           (Demo.with_providers {| latency := 200; outcome := Fulfilled Demo.unavailable_response |}
                                (fetchGroq Demo.world [] []) None)
           (Some ([] ++ [Demo.user "fees"])) later
         = (Ok (createStreamResponse apology), later).
Proof.
  apply (outage_apology_is_cached
           (Demo.with_providers {| latency := 200; outcome := Fulfilled Demo.unavailable_response |}
                                (fetchGroq Demo.world [] []) None)
           [] (Demo.user "fees") Demo.start (lit "g-key"));
    [reflexivity | discriminate | reflexivity | reflexivity | reflexivity | discriminate].
Defined.

(** [Route.POST] never waits more than 10000 ms on the clock for its
    outbound calls: at most 1500 ms for retrieval, 3500 ms for the primary
    and 5000 ms for the secondary provider. *)
Theorem route_wait_bound (W : World) (body : option (list Message.t)) (st : state) :
  exists response st',
    Route.POST W body st = (Ok response, st')
    /\ clock st' <= clock st + 10000.
Proof.
  destruct (request_cases W body)
    as [Hk|(apiKey & Hk & [->|[(messages & -> & Hq)|(earlier & current & -> & Htq)]])].
  { destruct (missing_key_rejected_aux W body st Hk) as [-> _].
    eexists _, _. split; [reflexivity | lia]. }
  { destruct (unreadable_body_aux W st apiKey Hk) as [-> _].
    eexists _, _. split; [reflexivity | lia]. }
  { destruct (no_query_aux W messages st apiKey Hk Hq) as [-> _].
    eexists _, _. split; [reflexivity | lia]. }
  pose proof (Route_POST_run W earlier current st apiKey Hk Htq) as HR. cbv zeta in HR.
  destruct (cached_hit W (Message.content current) st) as [hit|].
  { rewrite HR. eexists _, _. split; [reflexivity | lia]. }
  destruct HR as (retrieval & st1 & Ht & HR).
  apply tieredRetrieval_facts in Ht as (_ & Ht & _).
  destruct (roles_present (slice (earlier ++ [current]) (-4) None)).
  - destruct HR as (prompt & text & st2 & _ & Hg & ->).
    apply generateWithFallback_facts in Hg as (_ & Hg & _).
    eexists _, _. split; [reflexivity|]. simpl. lia.
  - rewrite HR. eexists _, _. split; [reflexivity | lia].
Qed.

(** A cached answer that is the empty string is never served, fresh or
    not: for a request whose last four messages have a role, [Route.POST]
    runs the pipeline again, starting with the knowledge base lookup and
    ending with a new cache write for the same key. *)
Theorem empty_cached_answer_regenerated (W : World) (earlier : list Message.t)
    (current : Message.t) (st : state) (e : CacheEntry) :
  truthy_opt (GEMINI_API_KEY W) <> None ->
  Message.content current <> [] ->
  roles_present (slice (earlier ++ [current]) (-4) None) = true ->
  cache st !! cache_key W (Message.content current) = Some e ->
  answer e = [] ->
  exists text mid entry,
    fst (Route.POST W (Some (earlier ++ [current])) st) = Ok (createStreamResponse text)
    /\ events_since st (snd (Route.POST W (Some (earlier ++ [current])) st))
       = KbSearch (Message.content current) :: mid
         ++ [CachePut (cache_key W (Message.content current)) entry]
    /\ answer entry = text.
Proof.
  intros Hkey Hq Hroles He Hempty.
  destruct (truthy_opt (GEMINI_API_KEY W)) as [apiKey|] eqn:Hk; [|congruence].
  assert (Htq : truthy (Message.content current) = true)
    by (destruct (Message.content current); [congruence | reflexivity]).
  pose proof (Route_POST_run W earlier current st apiKey Hk Htq) as HR. cbv zeta in HR.
  assert (Hmiss : cached_hit W (Message.content current) st = None).
  { unfold cached_hit. rewrite He, Hempty.
    now destruct (clock st - timestamp e <? 3600000). }
  rewrite Hmiss in HR. destruct HR as (retrieval & st1 & Ht & HR). rewrite Hroles in HR.
  destruct HR as (prompt & text & st2 & _ & Hg & ->).
  apply tieredRetrieval_facts in Ht as (_ & _ & rest & Hl1 & _).
  apply generateWithFallback_facts in Hg as (_ & _ & (evs & Hl2) & _).
  exists text, (rest ++ evs), {| answer := text; timestamp := clock st2 |}.
  split; [reflexivity|]. split; [|reflexivity].
  apply events_since_app. simpl. rewrite Hl2, Hl1.
  rewrite <- ?app_assoc. simpl. now rewrite <- ?app_assoc.
Qed.

Lemma empty_cached_answer_regenerated_witness :
  exists text mid entry,
    fst (Route.POST Demo.world (Some ([] ++ [Demo.user "fees"]))
           {| cache := {[ lit "fees" := {| answer := []; timestamp := 999000 |} ]};
              clock := 1000000; log := [] |})
    = Ok (createStreamResponse text)
    /\ events_since {| cache := {[ lit "fees" := {| answer := []; timestamp := 999000 |} ]};
                       clock := 1000000; log := [] |}
         (snd (Route.POST Demo.world (Some ([] ++ [Demo.user "fees"]))
                 {| cache := {[ lit "fees" := {| answer := []; timestamp := 999000 |} ]};
                    clock := 1000000; log := [] |}))
       = KbSearch (Message.content (Demo.user "fees")) :: mid
         ++ [CachePut (cache_key Demo.world (Message.content (Demo.user "fees"))) entry]
    /\ answer entry = text.
Proof.
  apply (empty_cached_answer_regenerated Demo.world [] (Demo.user "fees") _
           {| answer := []; timestamp := 999000 |});
    [discriminate | discriminate | reflexivity | | reflexivity].
  change (cache_key Demo.world (Message.content (Demo.user "fees"))) with (lit "fees").
  apply lookup_singleton_eq.
Defined.

(** ** Handlers: the catch *)



(** A request that misses the cache and has, among the messages rendered
    into the history block, one without a role: building the prompt throws,
    the catch answers with the stream of the fixed error text, and nothing is
    generated or stored.  In [Route.POST] the block is made of the last four
    messages and retrieval has already run; in [Unified.POST] it is made of
    the last four messages before the current one and the search has run
    unless the query is general chat. *)
Theorem history_without_role_error (W : World) (earlier : list Message.t)
    (current : Message.t) (st : state) :
  truthy_opt (GEMINI_API_KEY W) <> None ->
  Message.content current <> [] ->
  cached_hit W (Message.content current) st = None ->
  (roles_present (slice (earlier ++ [current]) (-4) None) = false ->
   exists st',
     Route.POST W (Some (earlier ++ [current])) st
     = (Ok (createStreamResponse Route.critical_error_text), st')
     /\ cache st' = cache st
     /\ (exists rest, events_since st st' = KbSearch (Message.content current) :: rest
                      /\ forallb is_search rest = true))
  /\ (roles_present (recent_window (earlier ++ [current])) = false ->
      exists st',
        Unified.POST W (Some (earlier ++ [current])) st
        = (Ok (createStreamResponse Unified.critical_error_text), st')
        /\ cache st' = cache st
        /\ forallb is_search (events_since st st') = true).
Proof.
  intros Hkey Hq Hmiss.
  destruct (truthy_opt (GEMINI_API_KEY W)) as [apiKey|] eqn:Hk; [|congruence].
  assert (Htq : truthy (Message.content current) = true)
    by (destruct (Message.content current); [congruence | reflexivity]).
  pose proof (Route_POST_run W earlier current st apiKey Hk Htq) as HR.
  pose proof (Unified_POST_run W earlier current st apiKey Hk Htq) as HU.
  cbv zeta in HR, HU. rewrite Hmiss in HR, HU.
  split; intros Hroles.
  - destruct HR as (retrieval & st1 & Ht & HR). rewrite Hroles in HR.
    apply tieredRetrieval_facts in Ht as (Hc & _ & rest & Hl & Hs).
    exists st1. split; [exact HR|]. split; [exact Hc|].
    exists rest. split; [now apply events_since_app | exact Hs].
  - destruct HU as (found & st1 & Hf & HU). rewrite Hroles in HU.
    apply gather_facts in Hf as (Hc & evs & Hl & Hs).
    exists st1. split; [exact HU|]. split; [exact Hc|].
    now rewrite (events_since_app _ _ _ Hl).
Qed.

Lemma history_without_role_error_witness :
  exists st',
    Route.POST Demo.world
      (Some ([{| Message.role := None; Message.content := lit "hi" |}] ++ [Demo.user "fees"]))
      Demo.start
    = (Ok (createStreamResponse Route.critical_error_text), st')
    /\ cache st' = cache Demo.start
    /\ (exists rest, events_since Demo.start st'
                     = KbSearch (Message.content (Demo.user "fees")) :: rest
                     /\ forallb is_search rest = true).
Proof.
  apply (proj1 (history_without_role_error Demo.world
                  [{| Message.role := None; Message.content := lit "hi" |}]
                  (Demo.user "fees") Demo.start
                  ltac:(discriminate) ltac:(discriminate) eq_refl)).
  reflexivity.
Defined.

(** ** Classifier: what the decision depends on *)

Lemma trimStart_canonical (s : jsstring) :
  trimStart (List.map Unified.canonicalize s) = List.map Unified.canonicalize (trimStart s).
Proof.
  induction s as [|c s IH]; [reflexivity|].
  simpl. rewrite canonicalize_space. now destruct (is_js_space c).
Qed.

Lemma trim_canonical (s : jsstring) :
  trim (List.map Unified.canonicalize s) = List.map Unified.canonicalize (trim s).
Proof.
  unfold trim, trimEnd.
  now rewrite trimStart_canonical, <- map_rev, trimStart_canonical, map_rev.
Qed.

Lemma general_chat_test_canonical (s s' : jsstring) :
  List.map Unified.canonicalize s = List.map Unified.canonicalize s' ->
  Unified.general_chat_test s = Unified.general_chat_test s'.
Proof.
  intros Heq.
  destruct (Unified.general_chat_test s) eqn:H1, (Unified.general_chat_test s') eqn:H2;
    try reflexivity.
  - apply general_chat_test_spec in H1 as (p & Hp & Hps).
    rewrite Heq in Hps. assert (Unified.general_chat_test s' = true) as H
      by (apply general_chat_test_spec; eauto). congruence.
  - apply general_chat_test_spec in H2 as (p & Hp & Hps).
    rewrite <- Heq in Hps. assert (Unified.general_chat_test s = true) as H
      by (apply general_chat_test_spec; eauto). congruence.
Qed.

Lemma trimStart_blank (u w : jsstring) :
  forallb is_js_space u = true -> trimStart (u ++ w) = trimStart w.
Proof.
  induction u as [|c u IH]; [reflexivity|].
  simpl. intros H. apply andb_prop in H as [-> H]. now apply IH.
Qed.

Lemma trimStart_app_blank (q v : jsstring) :
  forallb is_js_space v = true ->
  rev (trimStart (rev (trimStart (q ++ v)))) = rev (trimStart (rev (trimStart q))).
Proof.
  intros Hv. induction q as [|c q IH].
  - simpl. rewrite <- (app_nil_r v), trimStart_blank by exact Hv. reflexivity.
  - simpl. destruct (is_js_space c); [exact IH|].
    change (c :: q ++ v) with ((c :: q) ++ v).
    rewrite rev_app_distr, trimStart_blank; [reflexivity|].
    rewrite forallb_forall in *. intros x Hx. apply Hv. now apply in_rev.
Qed.

Lemma trim_blank_around (u q v : jsstring) :
  forallb is_js_space u = true -> forallb is_js_space v = true ->
  trim (u ++ q ++ v) = trim q.
Proof.
  intros Hu Hv. unfold trim, trimEnd.
  rewrite trimStart_blank by exact Hu. now apply trimStart_app_blank.
Qed.

(** The classifier looks at the query only up to ASCII letter case and
    surrounding white space: two queries whose code units agree after
    upper-casing ASCII letters are classified alike, and white space put
    before or after a query does not change its class. *)
Theorem general_chat_insensitive :
  (forall q q',
      List.map Unified.canonicalize q = List.map Unified.canonicalize q' ->
      Unified.isGeneralChat q = Unified.isGeneralChat q')
  /\ (forall u q v,
        forallb is_js_space u = true -> forallb is_js_space v = true ->
        Unified.isGeneralChat (u ++ q ++ v) = Unified.isGeneralChat q).
Proof.
  split.
  - intros q q' Heq. unfold Unified.isGeneralChat.
    apply general_chat_test_canonical. now rewrite <- !trim_canonical, Heq.
  - intros u q v Hu Hv. unfold Unified.isGeneralChat. now rewrite trim_blank_around.
Qed.

Lemma general_chat_insensitive_witness :
  Unified.isGeneralChat (lit "GOOD evening") = Unified.isGeneralChat (lit "good Evening")
  /\ Unified.isGeneralChat (lit "  " ++ lit "thanks for the help" ++ nl)
     = Unified.isGeneralChat (lit "thanks for the help").
Proof.
  split.
  - apply (proj1 general_chat_insensitive). reflexivity.
  - apply (proj2 general_chat_insensitive); reflexivity.
Defined.

(** ** [searchTavily] *)

Lemma fold_append_result (rs : list Tavily.result) (acc : jsstring) :
  fold_left Tavily.append_result rs acc = acc ++ concat (List.map Tavily.result_block rs).
Proof.
  revert acc. induction rs as [|r rs IH]; intros acc; cbn [fold_left List.map concat].
  - now rewrite app_nil_r.
  - rewrite IH. unfold Tavily.append_result, Tavily.result_block.
    rewrite <- !app_assoc. reflexivity.
Qed.

(** [searchTavily] never rejects.  Without [TAVILY_API_KEY] it resolves at
    once with the empty string and sends nothing; with a key it sends one
    request, for the query followed by the site restriction, and resolves
    when the request settles: with the empty string when the request fails,
    the status is not ok or the body cannot be read, with the formatted
    body otherwise. *)
Theorem tavily_degrades_to_empty (key : option jsstring)
    (fetch : jsstring -> jsstring -> promise Tavily.response) (query : jsstring) :
  let r := Tavily.searchTavily key fetch query in
  (exists text, outcome (snd r) = Fulfilled text)
  /\ (truthy_opt key = None -> r = ([], {| latency := 0; outcome := Fulfilled [] |}))
  /\ (forall apiKey, truthy_opt key = Some apiKey ->
        let res := fetch apiKey (Tavily.search_query query) in
        fst r = [Tavily.search_query query]
        /\ latency (snd r) = latency res
        /\ (forall reason, outcome res = Rejected reason -> outcome (snd r) = Fulfilled [])
        /\ (forall resp, outcome res = Fulfilled resp ->
              outcome (snd r)
              = Fulfilled (if Tavily.ok resp
                           then match Tavily.json resp with
                                | Some d => Tavily.format d
                                | None => []
                                end
                           else []))).
Proof.
  intros r. subst r. unfold Tavily.searchTavily.
  destruct (truthy_opt key) as [apiKey|]; simpl.
  - split; [now eexists|]. split; [discriminate|].
    intros k [= <-]. split; [reflexivity|]. split; [reflexivity|]. split.
    + now intros reason ->.
    + intros resp ->. now destruct (Tavily.ok resp).
  - split; [now eexists|]. split; [reflexivity | discriminate].
Qed.

Lemma tavily_degrades_to_empty_witness :
  Tavily.searchTavily (Some []) (fun _ _ => {| latency := 50; outcome := Rejected (lit "never called") |})
    (lit "hostel fees")
  = ([], {| latency := 0; outcome := Fulfilled [] |}).
Proof.
  apply (proj1 (proj2 (tavily_degrades_to_empty (Some []) _ (lit "hostel fees")))).
  reflexivity.
Defined.

(** The formatted body: the direct answer, if there is a non-empty one,
    then, if [results] is an array, the heading [Web Results:] and one block
    of three lines per result, in the order of the array.  It is the empty
    string only when there is neither an answer nor a result array: an
    empty array still gives the heading. *)
Theorem tavily_format_layout (d : Tavily.data) :
  Tavily.format d
  = match truthy_opt (Tavily.answer d) with
    | Some a => lit "Direct Answer: " ++ a ++ nl ++ nl
    | None => []
    end
    ++ match Tavily.results d with
       | Some rs => lit "Web Results:" ++ nl ++ concat (List.map Tavily.result_block rs)
       | None => []
       end
  /\ (Tavily.format d = []
      <-> truthy_opt (Tavily.answer d) = None /\ Tavily.results d = None).
Proof.
  assert (Heq : Tavily.format d
                = match truthy_opt (Tavily.answer d) with
                  | Some a => lit "Direct Answer: " ++ a ++ nl ++ nl
                  | None => []
                  end
                  ++ match Tavily.results d with
                     | Some rs => lit "Web Results:" ++ nl
                                  ++ concat (List.map Tavily.result_block rs)
                     | None => []
                     end).
  { unfold Tavily.format.
    destruct (truthy_opt (Tavily.answer d)) as [a|], (Tavily.results d) as [rs|];
      rewrite ?fold_append_result, ?app_nil_r, <- ?app_assoc; reflexivity. }
  split; [exact Heq|]. rewrite Heq.
  destruct (truthy_opt (Tavily.answer d)) as [a|], (Tavily.results d) as [rs|];
    split; try discriminate; try (intros [? ?]; discriminate); now split.
Qed.

(** Tiered retrieval over this [searchTavily] with no [TAVILY_API_KEY]:
    the missing key is not a failure, the web tier rests on the site search
    alone.  With an empty knowledge base and a site search settled within
    1500 ms, the result is [No information found.] with confidence 0 when
    the site search gave nothing, and the labelled text with confidence
    0.85 otherwise. *)
Theorem tiered_without_tavily_key (W : World) (key : option jsstring)
    (fetch : jsstring -> jsstring -> promise Tavily.response)
    (query : jsstring) (st : state) :
  truthy_opt key = None ->
  searchKnowledgeBase W query = [] ->
  0 <= latency (searchSIETKWebsite W query) < 1500 ->
  let exa := fulfilled_or_empty (outcome (searchSIETKWebsite W query)) in
  tieredRetrieval (with_tavily W key fetch) query st
  = (Ok (if truthy exa
         then {| content := lit "EXA: " ++ exa ++ nl ++ nl ++ lit "TAVILY: ";
                 confidence := 0.85; sources := [lit "Web Search"] |}
         else {| content := lit "No information found."; confidence := 0; sources := [] |}),
     {| cache := cache st;
        clock := clock st + latency (searchSIETKWebsite W query);
        log := log st ++ [KbSearch query; ExaSearch query; TavilySearch query] |}).
Proof.
  intros Hkey Hkb Hlat exa. rewrite tieredRetrieval_run.
  change (searchKnowledgeBase (with_tavily W key fetch) query)
    with (searchKnowledgeBase W query).
  change (searchSIETKWebsite (with_tavily W key fetch) query)
    with (searchSIETKWebsite W query).
  change (searchTavily (with_tavily W key fetch) query)
    with (snd (Tavily.searchTavily key fetch query)).
  assert (snd (Tavily.searchTavily key fetch query)
          = {| latency := 0; outcome := Fulfilled [] |}) as ->
    by (unfold Tavily.searchTavily; now rewrite Hkey).
  rewrite Hkb. cbn [truthy latency outcome fulfilled_or_empty].
  rewrite Z.max_l by lia.
  destruct (Z.leb_spec (latency (searchSIETKWebsite W query)) 1500); [|lia].
  fold exa. rewrite orb_false_r, app_nil_r. reflexivity.
Qed.

Lemma tiered_without_tavily_key_witness :
  tieredRetrieval (with_tavily Demo.world None (fun _ _ => {| latency := 10; outcome := Rejected [] |}))
    (lit "hostel") Demo.start
  = (Ok {| content := lit "EXA: site" ++ nl ++ nl ++ lit "TAVILY: ";
           confidence := 0.85; sources := [lit "Web Search"] |},
     {| cache := cache Demo.start;
        clock := clock Demo.start + 300;
        log := log Demo.start ++ [KbSearch (lit "hostel"); ExaSearch (lit "hostel");
                                  TavilySearch (lit "hostel")] |}).
Proof.
  apply (tiered_without_tavily_key Demo.world None
           (fun _ _ => {| latency := 10; outcome := Rejected [] |})
           (lit "hostel") Demo.start); [reflexivity | reflexivity | simpl; lia].
Defined.

(** An ok Tavily response with an empty result array and no answer is not
    empty text: with an empty knowledge base and a site search that gave
    nothing, both settled within 1500 ms, tiered retrieval reports
    confidence 0.85 with only the two labels and the [Web Results:] heading
    as content. *)
Theorem tiered_empty_result_list (W : World) (apiKey : jsstring)
    (fetch : jsstring -> jsstring -> promise Tavily.response)
    (query : jsstring) (st : state) (wait : Z) :
  apiKey <> [] ->
  searchKnowledgeBase W query = [] ->
  fulfilled_or_empty (outcome (searchSIETKWebsite W query)) = [] ->
  latency (searchSIETKWebsite W query) < 1500 ->
  wait < 1500 ->
  fetch apiKey (Tavily.search_query query)
  = {| latency := wait;
       outcome := Fulfilled {| Tavily.ok := true;
                               Tavily.json := Some {| Tavily.answer := None;
                                                      Tavily.results := Some [] |} |} |} ->
  fst (tieredRetrieval (with_tavily W (Some apiKey) fetch) query st)
  = Ok {| content := lit "EXA: " ++ nl ++ nl ++ lit "TAVILY: Web Results:" ++ nl;
          confidence := 0.85; sources := [lit "Web Search"] |}.
Proof.
  intros Hkey Hkb Hexa Hlat Hwait Hfetch. rewrite tieredRetrieval_run.
  change (searchKnowledgeBase (with_tavily W (Some apiKey) fetch) query)
    with (searchKnowledgeBase W query).
  change (searchSIETKWebsite (with_tavily W (Some apiKey) fetch) query)
    with (searchSIETKWebsite W query).
  change (searchTavily (with_tavily W (Some apiKey) fetch) query)
    with (snd (Tavily.searchTavily (Some apiKey) fetch query)).
  assert (snd (Tavily.searchTavily (Some apiKey) fetch query)
          = {| latency := wait; outcome := Fulfilled (lit "Web Results:" ++ nl) |}) as ->.
  { unfold Tavily.searchTavily. rewrite (truthy_opt_some apiKey)
      by (destruct apiKey; [congruence | reflexivity]).
    cbn [snd]. rewrite Hfetch. reflexivity. }
  rewrite Hkb, Hexa. cbn [truthy latency outcome fulfilled_or_empty fst].
  destruct (Z.leb_spec (Z.max (latency (searchSIETKWebsite W query)) wait) 1500); [|lia].
  reflexivity.
Qed.

Lemma tiered_empty_result_list_witness :
  fst (tieredRetrieval
         (with_tavily (Demo.with_searches {| latency := 100; outcome := Fulfilled [] |}
                                          (searchTavily Demo.world []))
            (Some (lit "t-key"))
            (fun _ _ => {| latency := 250;
                           outcome := Fulfilled {| Tavily.ok := true;
                                                   Tavily.json := Some {| Tavily.answer := None;
                                                                          Tavily.results := Some [] |} |} |}))
         (lit "hostel") Demo.start)
  = Ok {| content := lit "EXA: " ++ nl ++ nl ++ lit "TAVILY: Web Results:" ++ nl;
          confidence := 0.85; sources := [lit "Web Search"] |}.
Proof.
  apply (tiered_empty_result_list _ (lit "t-key") _ (lit "hostel") Demo.start 250);
    [discriminate | reflexivity | reflexivity | simpl; lia | lia | reflexivity].
Defined.

(** ** Prompt of the unified handler on a conversation *)

Lemma unified_prompt_contract_witness :
  Unified.buildProductionPrompt Demo.world
    {| content := lit "ctx"; confidence := 0.9; sources := [] |} (lit "And hostel fees?")
    ([Demo.user "fees"; Demo.assistant "See the notice board."] ++ [Demo.user "something else"])
  = Unified.buildProductionPrompt Demo.world
      {| content := lit "ctx"; confidence := 0.9; sources := [] |} (lit "And hostel fees?")
      [Demo.user "fees"; Demo.assistant "See the notice board."; Demo.user "And hostel fees?"].
Proof.
  apply (proj2 (proj2 (proj2 (unified_prompt_contract Demo.world
                                {| content := lit "ctx"; confidence := 0.9; sources := [] |}
                                (lit "And hostel fees?")
                                [Demo.user "fees"; Demo.assistant "See the notice board.";
                                 Demo.user "And hostel fees?"]))))
    with (current := Demo.user "And hostel fees?").
  reflexivity.
Defined.
